(** * kafka-backup-demos: the Python backup/restore harness and the
      benchmark report formatter

    A shallow embedding of
      - [python/backup-restore-py/demo_backup_restore.py]
        ([generate_test_messages], [produce_messages], [consume_messages],
        [run_kafka_backup_command], [run_kafka_cli_command],
        [compare_messages], [main]);
      - [benchmarks/tools/generate_report.py]
        ([check_target] and the summary table of [generate_report]).

    Conventions of the embedding.
      - Python [str] is [string]; comparison of [str] is the lexicographic
        order on code points, which on UTF-8 bytes is [String.compare].
      - Python [int] is [Z].
      - An order's [amount] is [round(x, 2)]: it is kept as the number of
        hundredths, a [Z]; the only operation the harness applies to it is
        [!=].
      - Wall-clock time is a [Z] number of milliseconds; only
        [consumer.poll] lets time pass.
      - What the script prints is kept as a list of [output] events, in
        the order printed.
      - The outside world (random source, broker acknowledgements, exit
        status of the sub-processes, results of [poll]) is an explicit
        argument. *)

From Stdlib Require Import ZArith List Bool Lia String Ascii.
From Stdlib Require Import Permutation Sorted DecimalString DecimalN QArith.
From Stdlib Require Import Qround.
Import ListNotations.

Local Open Scope string_scope.
Local Open Scope list_scope.
Local Open Scope Z_scope.

(** ** Python outcomes: a call returns, or raises *)

Inductive exn : Type :=
  | ValueError
  | TypeError
  | AttributeError
  | IndexError
  | UnicodeDecodeError.

Inductive outcome (A : Type) : Type :=
  | Returned (a : A)
  | Raised (e : exn).

Arguments Returned {A} a.
Arguments Raised {A} e.

(** ** Orders *)

(** The dictionary built by [generate_test_messages], one field per key. *)
Record order : Type := mkOrder {
  order_id : string;
  customer_id : string;
  product : string;
  amount : Z;
  timestamp : string
}.

(** ** What the harness prints *)

Inductive output : Type :=
  | ErrCountMismatch (n m : nat)      (* "Message count mismatch: n vs m" *)
  | OutKeyMismatch (k k' : string)    (* "  Mismatch: k != k'" *)
  | OutAmountMismatch (k : string)    (* "  Amount mismatch for k" *)
  | OkAllMatch (n : nat)              (* "All n messages match!" *)
  | ErrMismatchesFound (n : nat)      (* "n mismatches found" *)
  | OkProduced (n : nat)              (* "Produced n messages to 'orders'" *)
  | ErrDeliveryFailed                 (* "Delivery failed: ..." *)
  | OutTimeoutReached                 (* "  Timeout reached after ...s" *)
  | ErrConsumerError                  (* "Consumer error: ..." *)
  | OutNotJson                        (* "  Warning: Could not parse ..." *)
  | OkCommand (description : string)  (* print_success(description) *)
  | ErrCommandFailed (description : string)
  | ErrCommandTimedOut (description : string)
  | ErrCommandError (message : string)
      (* line 160: "Error running command: {e}" *)
  | ErrCliFailed (description stderr : string)
      (* line 184: "{description} failed: {result.stderr}" *)
  | ErrCliTimedOut
      (* line 188: "Error: {e}", e the TimeoutExpired of the command *)
  | ErrCliError (message : string)
      (* line 188: "Error: {e}", any other exception *)
  | OutText (s : string)              (* print(result.stdout[:500]) *)
  | OutStep (n : Z)                   (* print_step(n, ...) *)
  | OkGenerated (n : nat)
  | OutConsumed (n : nat)
  | ErrBackupFailed
  | ErrRestoreFailed
  | OutSuccess
  | OutFailure
  | OutArgparseHelp                   (* the help text argparse prints *)
  | ErrArgparseUsage.                 (* the usage error argparse prints *)

(** ** [sorted(xs, key=lambda x: x['order_id'])] *)

(** [sorted] is stable: among orders with equal keys the input order is
    kept.  A stable sort has one possible result for each input, so the
    stable insertion sort below is the function [sorted] computes. *)
Fixpoint insert_by_key (x : order) (l : list order) : list order :=
  match l with
  | [] => [x]
  | y :: l' =>
      if String.leb (order_id x) (order_id y)
      then x :: y :: l'
      else y :: insert_by_key x l'
  end.

Fixpoint sorted_by_order_id (l : list order) : list order :=
  match l with
  | [] => []
  | x :: l' => insert_by_key x (sorted_by_order_id l')
  end.

(** ** [compare_messages] *)

(** The body of the [for orig, rest in zip(...)] loop: the new value of
    [mismatches] and what the iteration prints. *)
Definition compare_pair (mismatches : nat) (orig rest : order)
  : nat * list output :=
  if negb (String.eqb (order_id orig) (order_id rest)) then
    (S mismatches, [OutKeyMismatch (order_id orig) (order_id rest)])
  else if negb (Z.eqb (amount orig) (amount rest)) then
    (S mismatches, [OutAmountMismatch (order_id orig)])
  else (mismatches, []).

Fixpoint compare_loop (mismatches : nat) (pairs : list (order * order))
  : nat * list output :=
  match pairs with
  | [] => (mismatches, [])
  | (orig, rest) :: pairs' =>
      let '(m, out) := compare_pair mismatches orig rest in
      let '(m', out') := compare_loop m pairs' in
      (m', out ++ out')
  end.

(** The value of [mismatches] after the loop, for two lists of equal
    length. *)
Definition count_mismatches (original restored : list order) : nat :=
  fst (compare_loop 0%nat
         (combine (sorted_by_order_id original)
                  (sorted_by_order_id restored))).

Definition compare_messages (original restored : list order)
  : bool * list output :=
  if negb (Nat.eqb (List.length original) (List.length restored)) then
    (false, [ErrCountMismatch (List.length original) (List.length restored)])
  else
    let original_sorted := sorted_by_order_id original in
    let restored_sorted := sorted_by_order_id restored in
    let '(mismatches, out) :=
      compare_loop 0%nat (combine original_sorted restored_sorted) in
    if Nat.eqb mismatches 0 then
      (true, out ++ [OkAllMatch (List.length original)])
    else
      (false, out ++ [ErrMismatchesFound mismatches]).

(** The per-record lines of a run of [compare_messages]. *)
Definition is_record_mismatch (o : output) : bool :=
  match o with
  | OutKeyMismatch _ _ | OutAmountMismatch _ => true
  | _ => false
  end.

Definition mismatch_lines (out : list output) : list output :=
  filter is_record_mismatch out.

(** ** f-string integer formatting: [{i:04d}], [{n:03d}] *)

Definition digits (n : N) : string :=
  NilEmpty.string_of_uint (N.to_uint n).

Fixpoint zeros (k : nat) : string :=
  match k with
  | O => ""
  | S k' => String "0" (zeros k')
  end.

Definition zfill (width : nat) (s : string) : string :=
  (zeros (width - String.length s) ++ s)%string.

(** [format(i, '0{width}d')]: zero padding counts the sign. *)
Definition format_0d (width : nat) (i : Z) : string :=
  if i <? 0 then ("-" ++ zfill (width - 1) (digits (Z.to_N (- i))))%string
  else zfill width (digits (Z.to_N i)).

(** [range(a, b)] *)
Definition range (a b : Z) : list Z :=
  map (fun k => a + Z.of_nat k) (seq 0 (Z.to_nat (b - a))).

(** ** [generate_test_messages] *)

(** The ambient random source and clock the generator reads, as a state
    [G] and the four calls made on it. *)
Record ambient (G : Type) : Type := mkAmbient {
  randint : Z -> Z -> G -> Z * G;               (* random.randint(a, b) *)
  choice : list string -> G -> string * G;      (* random.choice(xs) *)
  uniform_round2 : Z -> Z -> G -> Z * G;
    (* round(random.uniform(a, b), 2), in hundredths *)
  strftime_gmtime : G -> string * G             (* time.strftime(...) *)
}.

Arguments randint {G} _ _ _ _.
Arguments choice {G} _ _ _.
Arguments uniform_round2 {G} _ _ _ _.
Arguments strftime_gmtime {G} _ _.

Definition products : list string := ["Widget"; "Gadget"; "Device"; "Tool"].

Section Generator.
Context {G : Type} (amb : ambient G).

(** The [for i in range(1, count + 1)] loop.  The fields of the
    dictionary display are evaluated in the order written. *)
Fixpoint generate_loop (indices : list Z) (g : G) : list order * G :=
  match indices with
  | [] => ([], g)
  | i :: indices' =>
      let '(c, g1) := randint amb 1 100 g in
      let '(p, g2) := choice amb products g1 in
      let '(a, g3) := uniform_round2 amb 10 1000 g2 in
      let '(t, g4) := strftime_gmtime amb g3 in
      let '(rest, g5) := generate_loop indices' g4 in
      (mkOrder ("PY-ORD-" ++ format_0d 4 i)%string
               ("CUST-" ++ format_0d 3 c)%string p a t :: rest, g5)
  end.

Definition generate_test_messages (count : Z) (g : G)
  : outcome (list order) * G :=
  let '(messages, g') := generate_loop (range 1 (count + 1)) g in
  (Returned messages, g').
End Generator.

(** ** [produce_messages] *)

(** What the broker does with one enqueued record before
    [producer.flush(timeout=30)] returns: the delivery callback runs
    without error, runs with an error, or has not run when the flush
    timeout expires. *)
Inductive delivery : Type :=
  | Acked
  | Failed
  | Unacknowledged.

Definition delivery_callback (delivered : nat) (d : delivery)
  : nat * list output :=
  match d with
  | Acked => (S delivered, [])
  | Failed => (delivered, [ErrDeliveryFailed])
  | Unacknowledged => (delivered, [])
  end.

Fixpoint flush (broker : order -> delivery) (delivered : nat)
  (messages : list order) : nat * list output :=
  match messages with
  | [] => (delivered, [])
  | msg :: messages' =>
      let '(d, out) := delivery_callback delivered (broker msg) in
      let '(d', out') := flush broker d messages' in
      (d', out ++ out')
  end.

(** The counter [delivered] when [flush] returns. *)
Definition delivered_count (broker : order -> delivery)
  (messages : list order) : nat :=
  fst (flush broker 0%nat messages).

(** [produce_messages] returns [None]: its only result is what it
    prints. *)
Definition produce_messages (broker : order -> delivery)
  (messages : list order) : unit * list output :=
  let '(delivered, out) := flush broker 0%nat messages in
  (tt, out ++ [OkProduced delivered]).

(** ** [consume_messages] *)

Inductive KafkaError : Type :=
  | PARTITION_EOF
  | OTHER_ERROR (code : Z).

(** [json.loads(msg.value().decode('utf-8'))]: a decoded order, a
    [json.JSONDecodeError] (caught by the loop), or a
    [UnicodeDecodeError] (which the [except] clause does not catch). *)
Inductive payload : Type :=
  | JsonOrder (o : order)
  | NotJson
  | NotUtf8.

Inductive poll_result : Type :=
  | PollNone                        (* msg is None *)
  | PollError (e : KafkaError)      (* msg.error() is set *)
  | PollMessage (p : payload).

(** One call [consumer.poll(1.0)]: how long it blocked and what it
    returned. *)
Record poll_event : Type := mkPoll {
  blocked_ms : Z;
  polled : poll_result
}.

(** The consumer, as the stream of its answers: [c n] answers the
    [n]-th call of [poll]. *)
Definition consumer : Type := nat -> poll_event.

Definition poll_interval : Z := 1000.
Definition max_empty_polls : Z := 10.
Definition default_timeout : Z := 30000.

(** The local variables of [consume_messages] together with the clock,
    the number of polls made and the lines printed. *)
Record drain_state : Type := mkDrain {
  messages : list order;
  empty_polls : Z;
  clock : Z;
  polls_done : nat;
  printed : list output
}.

Definition set_empty_polls (n : Z) (st : drain_state) : drain_state :=
  mkDrain (messages st) n (clock st) (polls_done st) (printed st).

Definition append_message (o : order) (st : drain_state) : drain_state :=
  mkDrain (messages st ++ [o]) (empty_polls st) (clock st) (polls_done st)
          (printed st).

Definition print (o : output) (st : drain_state) : drain_state :=
  mkDrain (messages st) (empty_polls st) (clock st) (polls_done st)
          (printed st ++ [o]).

Definition after_poll (ev : poll_event) (st : drain_state) : drain_state :=
  mkDrain (messages st) (empty_polls st) (clock st + blocked_ms ev)
          (S (polls_done st)) (printed st).

(** Lines 106 to 122: the loop body after [msg = consumer.poll(1.0)].
    The state is returned in both cases; on [Raised] it is the state at
    the raise. *)
Definition handle_poll (msg : poll_result) (st : drain_state)
  : outcome unit * drain_state :=
  match msg with
  | PollNone => (Returned tt, set_empty_polls (empty_polls st + 1) st)
  | PollError PARTITION_EOF =>
      (Returned tt, set_empty_polls (empty_polls st + 1) st)
  | PollError (OTHER_ERROR _) => (Returned tt, print ErrConsumerError st)
  | PollMessage p =>
      let st0 := set_empty_polls 0 st in
      match p with
      | JsonOrder o => (Returned tt, append_message o st0)
      | NotJson => (Returned tt, print OutNotJson st0)
      | NotUtf8 => (Raised UnicodeDecodeError, st0)
      end
  end.

(** The [while] loop.  [fuel] bounds the number of iterations; [None]
    means the bound was reached with the loop still running. *)
Fixpoint consume_loop (fuel : nat) (c : consumer) (start_time timeout : Z)
  (st : drain_state) : option (outcome (list order) * drain_state) :=
  match fuel with
  | O => None
  | S fuel' =>
      if empty_polls st <? max_empty_polls then
        if clock st - start_time >? timeout then
          Some (Returned (messages st), print OutTimeoutReached st)
        else
          let ev := c (polls_done st) in
          match handle_poll (polled ev) (after_poll ev st) with
          | (Returned _, st') => consume_loop fuel' c start_time timeout st'
          | (Raised e, st') => Some (Raised e, st')
          end
      else Some (Returned (messages st), st)
  end.

Definition consume_messages (fuel : nat) (c : consumer) (now timeout : Z)
  : option (outcome (list order) * drain_state) :=
  consume_loop fuel c now timeout (mkDrain [] 0 now 0%nat []).

(** ** [run_kafka_backup_command], [run_kafka_cli_command] *)

(** What [subprocess.run(cmd, capture_output=True, text=True, timeout=t)]
    does: the process exits, or the call raises. *)
Inductive process_result : Type :=
  | Completed (returncode : Z) (stdout stderr : string)
  | TimeoutExpired
  | OtherException (message : string).

Definition truncate500 (s : string) : string := substring 0 500 s.

Definition nonempty (s : string) : bool :=
  negb (String.eqb s "").

Definition run_kafka_backup_command (run : process_result)
  (description : string) : bool * list output :=
  match run with
  | Completed returncode stdout stderr =>
      if returncode =? 0 then
        (true, OkCommand description ::
               (if nonempty stdout then [OutText (truncate500 stdout)]
                else []))
      else
        (false, ErrCommandFailed description ::
                (if nonempty stderr then [OutText (truncate500 stderr)]
                 else []))
  | TimeoutExpired => (false, [ErrCommandTimedOut description])
  | OtherException message => (false, [ErrCommandError message])
  end.

(** Here [except Exception] also catches the timeout, and the failure
    line carries the whole of [result.stderr]. *)
Definition run_kafka_cli_command (run : process_result)
  (description : string) : bool * list output :=
  match run with
  | Completed returncode stdout stderr =>
      if returncode =? 0 then (true, [OkCommand description])
      else (false, [ErrCliFailed description stderr])
  | TimeoutExpired => (false, [ErrCliTimedOut])
  | OtherException message => (false, [ErrCliError message])
  end.

(** ** [main] *)

(** The side effects of the pipeline on the cluster and the storage, in
    the order [main] performs them.  Writing the local file
    [/tmp/python-backup.yaml] (lines 294 and 295), which no later step
    reads, is not one of them. *)
Inductive effect : Type :=
  | EffProduce (n : nat)         (* step 2: records handed to the producer *)
  | EffBackup                    (* step 3: kafka-backup backup *)
  | EffDeleteTopic               (* step 4 *)
  | EffCreateTopic               (* step 5 *)
  | EffRestore                   (* step 6: kafka-backup restore *)
  | EffConsume                   (* step 7 *)
  | EffCompare.                  (* step 8 *)

(** How the process ends: [sys.exit(code)] or falling off the end of
    [main] (code 0), an uncaught exception, or still inside the drain
    loop when the iteration bound is reached. *)
Inductive termination : Type :=
  | Exit (code : Z)
  | Uncaught (e : exn)
  | Running.

Record run : Type := mkRun {
  status : termination;
  effects : list effect;
  transcript : list output
}.

(** What [parser.parse_args()] (line 243) does with the command line:
    it returns the arguments, or prints the help text and calls
    [sys.exit(0)] ([-h], [--help]), or prints a usage error and calls
    [sys.exit(2)]. *)
Inductive parse_result : Type :=
  | ArgsParsed
  | HelpRequested
  | UsageError.

(** Everything outside the script that one run depends on, once the
    command line is parsed. *)
Record world : Type := mkWorld {
  arg_messages : Z;                   (* args.messages *)
  broker : order -> delivery;
  backup_run : process_result;
  delete_run : process_result;
  create_run : process_result;
  restore_run : process_result;
  verify_consumer : consumer;
  consume_start : Z                   (* time.time() at step 7 *)
}.

Section Main.
Context {G : Type} (amb : ambient G).

(** Steps 7 and 8 and the summary. *)
Definition main_verify (fuel : nat) (w : world)
  (original_messages : list order) (eff : list effect)
  (out : list output) : run :=
  let eff7 := eff ++ [EffConsume] in
  let out7 := out ++ [OutStep 7] in
  match consume_messages fuel (verify_consumer w) (consume_start w)
          default_timeout with
  | None => mkRun Running eff7 out7
  | Some (Raised e, st) => mkRun (Uncaught e) eff7 (out7 ++ printed st)
  | Some (Returned restored_messages, st) =>
      let out7' := out7 ++ printed st
                     ++ [OutConsumed (List.length restored_messages)] in
      let '(success, out8) :=
        compare_messages original_messages restored_messages in
      let eff8 := eff7 ++ [EffCompare] in
      let out8' := out7' ++ [OutStep 8] ++ out8 in
      if success then mkRun (Exit 0) eff8 (out8' ++ [OutSuccess])
      else mkRun (Exit 1) eff8 (out8' ++ [OutFailure])
  end.

(** Steps 4 to 6.  The values returned by the two calls of
    [run_kafka_cli_command] are dropped. *)
Definition main_reset_restore (fuel : nat) (w : world)
  (original_messages : list order) (eff : list effect)
  (out : list output) : run :=
  let '(_, out4) := run_kafka_cli_command (delete_run w) "Topic deleted" in
  let '(_, out5) :=
    run_kafka_cli_command (create_run w) "Topic recreated" in
  let '(success, out6) :=
    run_kafka_backup_command (restore_run w) "Restore completed" in
  let eff6 := eff ++ [EffDeleteTopic; EffCreateTopic; EffRestore] in
  let out6' := out ++ [OutStep 4] ++ out4 ++ [OutStep 5] ++ out5
                   ++ [OutStep 6] ++ out6 in
  if negb success then mkRun (Exit 1) eff6 (out6' ++ [ErrRestoreFailed])
  else main_verify fuel w original_messages eff6 out6'.

(** [main] from line 245 on, for the parsed arguments kept in [w]; the
    call of [parse_args] that precedes it is in [main_from_command_line]
    below. *)
Definition main (fuel : nat) (w : world) (g : G) : run :=
  (* Step 1 *)
  match generate_test_messages amb (arg_messages w) g with
  | (Raised e, _) => mkRun (Uncaught e) [] [OutStep 1]
  | (Returned original_messages, _) =>
      let out1 := [OutStep 1; OkGenerated (List.length original_messages)] in
      match original_messages with
      | [] => mkRun (Uncaught IndexError) [] out1  (* original_messages[0] *)
      | _ :: _ =>
          (* Step 2 *)
          let '(_, out2) := produce_messages (broker w) original_messages in
          let eff2 := [EffProduce (List.length original_messages)] in
          (* Step 3 *)
          let '(success, out3) :=
            run_kafka_backup_command (backup_run w) "Backup completed" in
          let eff3 := eff2 ++ [EffBackup] in
          let out3' := out1 ++ [OutStep 2] ++ out2 ++ [OutStep 3] ++ out3 in
          if negb success then
            mkRun (Exit 1) eff3 (out3' ++ [ErrBackupFailed])
          else main_reset_restore fuel w original_messages eff3 out3'
      end
  end.

(** The whole of [main], lines 237 to 364: [parse_args] first, which
    ends the process on [--help] and on a usage error before anything
    else happens. *)
Definition main_from_command_line (parsed : parse_result) (fuel : nat)
  (w : world) (g : G) : run :=
  match parsed with
  | ArgsParsed => main fuel w g
  | HelpRequested => mkRun (Exit 0) [] [OutArgparseHelp]
  | UsageError => mkRun (Exit 2) [] [ErrArgparseUsage]
  end.
End Main.

(** ** [generate_report.py]: [check_target] and the summary table *)

(** A document as [json.load] returns it.  Numbers are kept exact: the
    summary only compares them with 100 and 3. *)
#[local] Unset Elimination Schemes.
Inductive json : Type :=
  | JNull
  | JBool (b : bool)
  | JNum (q : Q)
  | JStr (s : string)
  | JArr (items : list json)
  | JObj (fields : list (string * json)).
#[local] Set Elimination Schemes.

Definition PASS : string := "✓ PASS".
Definition FAIL : string := "✗ FAIL".

Definition check_target (value target : Q) (higher_is_better : bool)
  : string :=
  if higher_is_better then
    if Qle_bool target value then PASS else FAIL
  else
    if Qle_bool value target then PASS else FAIL.

(** [d.get(key, default)] on the fields of an object. *)
Fixpoint dict_get (d : list (string * json)) (key : string) (default : json)
  : json :=
  match d with
  | [] => default
  | (k, v) :: d' => if String.eqb k key then v else dict_get d' key default
  end.

(** [x.get(key, default)]: only objects have [get]. *)
Definition get (x : json) (key : string) (default : json) : outcome json :=
  match x with
  | JObj d => Returned (dict_get d key default)
  | _ => Raised AttributeError
  end.

(** Truth value of a document in [if x:]. *)
Definition truthy (x : json) : bool :=
  match x with
  | JNull => false
  | JBool b => b
  | JNum q => negb (Qeq_bool q 0)
  | JStr s => nonempty s
  | JArr items => match items with [] => false | _ => true end
  | JObj d => match d with [] => false | _ => true end
  end.

(** The number formatted by [{x:.1f}] and compared by [check_target]. *)
Definition as_number (x : json) : outcome Q :=
  match x with
  | JNum q => Returned q
  | JBool b => Returned (if b then 1%Q else 0%Q)
  | JStr _ => Raised ValueError
  | JNull | JArr _ | JObj _ => Raised TypeError
  end.

(** One line of the summary table: the cells between the bars. *)
Record summary_row : Type := mkRow {
  metric : string;
  result : Q;
  target : string;
  row_status : string
}.

Definition bind {A B : Type} (x : outcome A) (f : A -> outcome B)
  : outcome B :=
  match x with
  | Returned a => f a
  | Raised e => Raised e
  end.

Notation "x <- c1 ;; c2" := (bind c1 (fun x => c2))
  (at level 61, c1 at next level, right associativity).

Definition throughput_row (throughput : json) : outcome (list summary_row) :=
  if truthy throughput then
    v <- get throughput "backup_mbps" (JNum 0) ;;
    backup_mbps <- as_number v ;;
    Returned [mkRow "Throughput (Backup)" backup_mbps "100 MB/s"
                (check_target backup_mbps 100 true)]
  else Returned [].

Definition compression_row (compression : json)
  : outcome (list summary_row) :=
  if truthy compression then
    zstd <- get compression "zstd" (JObj []) ;;
    v <- get zstd "ratio" (JNum 0) ;;
    ratio <- as_number v ;;
    Returned [mkRow "Compression Ratio" ratio "3-5x"
                (check_target ratio 3 true)]
  else Returned [].

Definition latency_row (latency : json) : outcome (list summary_row) :=
  if truthy latency then
    v <- get latency "checkpoint_p99_ms" (JNum 0) ;;
    checkpoint_p99 <- as_number v ;;
    Returned [mkRow "Checkpoint p99" checkpoint_p99 "<100ms"
                (check_target checkpoint_p99 100 false)]
  else Returned [].

(** Lines 60 to 79 of [generate_report]: the rows of the summary table. *)
Definition summary_rows (results : json) : outcome (list summary_row) :=
  scenarios <- get results "scenarios" (JObj []) ;;
  throughput <- get scenarios "throughput" (JObj []) ;;
  r1 <- throughput_row throughput ;;
  compression <- get scenarios "compression" (JObj []) ;;
  r2 <- compression_row compression ;;
  latency <- get scenarios "latency" (JObj []) ;;
  r3 <- latency_row latency ;;
  Returned (r1 ++ r2 ++ r3).

(** ** The order [sorted] sorts by *)

Definition key_le (x y : order) : Prop :=
  String.leb (order_id x) (order_id y) = true.

(** ** Sample data *)

(** Two orders with one key and two amounts, listed in both orders. *)
Definition dup_expected : list order :=
  [mkOrder "PY-ORD-0001" "CUST-001" "Widget" 1000 "t";
   mkOrder "PY-ORD-0001" "CUST-001" "Widget" 2000 "t"].

Definition dup_actual : list order :=
  [mkOrder "PY-ORD-0001" "CUST-001" "Widget" 2000 "t";
   mkOrder "PY-ORD-0001" "CUST-001" "Widget" 1000 "t"].

(** Three orders, and the same three as the bus might return them. *)
Definition three_orders : list order :=
  [mkOrder "PY-ORD-0002" "CUST-007" "Tool" 1999 "t";
   mkOrder "PY-ORD-0001" "CUST-010" "Widget" 1000 "t";
   mkOrder "PY-ORD-0003" "CUST-001" "Device" 55555 "t"].

Definition three_orders_shuffled : list order :=
  [mkOrder "PY-ORD-0003" "CUST-001" "Device" 55555 "t";
   mkOrder "PY-ORD-0002" "CUST-007" "Tool" 1999 "t";
   mkOrder "PY-ORD-0001" "CUST-010" "Widget" 1000 "t"].

(** A deterministic stand-in for the random source and the clock: the
    state is a counter. *)
Definition counter_ambient : ambient Z :=
  mkAmbient Z
    (fun a b g => (a + g mod (b - a + 1), g + 1))
    (fun xs g => (nth (Z.to_nat (g mod Z.of_nat (List.length xs))) xs "",
                  g + 1))
    (fun a b g => (100 * a + g mod (100 * (b - a) + 1), g + 7))
    (fun g => ("2024-01-01T00:00:00Z", g)).

(** Reading a decimal numeral back, leading zeros allowed. *)
Definition parse_decimal (s : string) : option N :=
  option_map N.of_uint (NilEmpty.uint_of_string s).

(** ** Consumers used in the statements *)

(** Every call of [poll] takes some time and at most the interval passed
    to it. *)
Definition timely (c : consumer) : Prop :=
  forall n, 0 < blocked_ms (c n) <= poll_interval.

(** A poll without data: [None], or the end-of-partition marker. *)
Definition is_idle (r : poll_result) : bool :=
  match r with
  | PollNone | PollError PARTITION_EOF => true
  | _ => false
  end.

Definition is_hard_error (r : poll_result) : bool :=
  match r with
  | PollError (OTHER_ERROR _) => true
  | _ => false
  end.

Definition is_not_json (r : poll_result) : bool :=
  match r with
  | PollMessage NotJson => true
  | _ => false
  end.

(** A topic that never yields a message: every poll runs into its
    one-second timeout and returns [None]. *)
Definition silent_consumer : consumer :=
  fun _ => mkPoll 1000 PollNone.

(** A consumer that fails on every poll, after 1 second. *)
Definition failing_consumer : consumer :=
  fun _ => mkPoll 1000 (PollError (OTHER_ERROR (-195))).

(** A consumer that returns a record whose payload is not UTF-8 on
    every poll, after 1 second. *)
Definition binary_consumer : consumer :=
  fun _ => mkPoll 1000 (PollMessage NotUtf8).

(** A consumer that returns a record that is not JSON on every poll,
    after 1 second. *)
Definition garbage_consumer : consumer :=
  fun _ => mkPoll 1000 (PollMessage NotJson).

(** The bound on iterations used for a drain from elapsed time 0. *)
Definition enough_fuel (timeout : Z) : nat := S (Z.to_nat (timeout + 1)).

(** A drain in progress: three idle polls so far, nothing collected. *)
Definition three_idle : drain_state := mkDrain [] 3 3000 3%nat [].

(** ** Sample runs of the pipeline *)

(** The orders the generator returns under [counter_ambient]. *)
Definition sample_orders (count : Z) : list order :=
  match fst (generate_test_messages counter_ambient count 0) with
  | Returned messages => messages
  | Raised _ => []
  end.

(** A consumer that returns the given orders one per poll and then
    nothing. *)
Definition replay_consumer (restored : list order) : consumer :=
  fun n =>
    match nth_error restored n with
    | Some o => mkPoll 5 (PollMessage (JsonOrder o))
    | None => mkPoll 1000 PollNone
    end.

Definition exit_ok : process_result := Completed 0 "" "".

Definition exit_1 : process_result := Completed 1 "" "error".

(** A broker that acknowledges the first record only before the flush
    timeout. *)
Definition acks_first_only (o : order) : delivery :=
  if String.eqb (order_id o) "PY-ORD-0001" then Acked else Unacknowledged.

(** Three records published, one acknowledged; every later step works,
    and the restore brings back all three. *)
Definition shortfall_world : world :=
  mkWorld 3 acks_first_only exit_ok exit_ok exit_ok exit_ok
          (replay_consumer (sample_orders 3)) 0.

(** Topic deletion exits with status 1; everything else works. *)
Definition delete_fails_world : world :=
  mkWorld 2 (fun _ => Acked) exit_ok exit_1 exit_ok exit_ok
          (replay_consumer (sample_orders 2)) 0.

(** Topic creation exits with status 1; everything else works. *)
Definition create_fails_world : world :=
  mkWorld 2 (fun _ => Acked) exit_ok exit_ok exit_1 exit_ok
          (replay_consumer (sample_orders 2)) 0.

(** ** Reading a results document *)

Fixpoint lookup (d : list (string * json)) (key : string) : option json :=
  match d with
  | [] => None
  | (k, v) :: d' => if String.eqb k key then Some v else lookup d' key
  end.

(** The member [key] of an object, when there is one. *)
Definition field (x : json) (key : string) : option json :=
  match x with
  | JObj d => lookup d key
  | _ => None
  end.

(** The three rows of the summary. *)
Definition throughput_summary (v : Q) : summary_row :=
  mkRow "Throughput (Backup)" v "100 MB/s" (check_target v 100 true).

Definition compression_summary (v : Q) : summary_row :=
  mkRow "Compression Ratio" v "3-5x" (check_target v 3 true).

Definition latency_summary (v : Q) : summary_row :=
  mkRow "Checkpoint p99" v "<100ms" (check_target v 100 false).

(** Scenario 5 of the specification. *)
Definition scenario5 : json :=
  JObj [("profile", JStr "quick");
        ("scenarios",
         JObj [("throughput", JObj [("backup_mbps", JNum 120)]);
               ("compression",
                JObj [("zstd", JObj [("ratio", JNum (42 # 10))])]);
               ("latency", JObj [("checkpoint_p99_ms", JNum 80)])])].

(** A summary row meets the fixed threshold of its metric. *)
Definition meets_threshold (r : summary_row) : Prop :=
  (metric r = "Throughput (Backup)" /\ (100 <= result r)%Q) \/
  (metric r = "Compression Ratio" /\ (3 <= result r)%Q) \/
  (metric r = "Checkpoint p99" /\ (result r <= 100)%Q).

(** ** What the comparator looks at *)

(** The two fields [compare_messages] reads. *)
Definition key_amount (o : order) : string * Z := (order_id o, amount o).

Definition same_checked (a b : order) : Prop :=
  order_id a = order_id b /\ amount a = amount b.

(** The order [o] with another amount. *)
Definition with_amount (a : Z) (o : order) : order :=
  mkOrder (order_id o) (customer_id o) (product o) a (timestamp o).

(** The amount of the order with key [k] replaced by [a]. *)
Definition alter_amount (k : string) (a : Z) (o : order) : order :=
  if String.eqb (order_id o) k then with_amount a o else o.

(** The order [o] with the fields the comparator does not read blanked. *)
Definition blank_unchecked (o : order) : order :=
  mkOrder (order_id o) "" "" (amount o) "".

(** ** Counting deliveries and polled orders *)

Definition is_acked (d : delivery) : bool :=
  match d with Acked => true | _ => false end.

Definition is_failed (d : delivery) : bool :=
  match d with Failed => true | _ => false end.

(** The orders among the first [n] answers of the consumer, in the
    order polled. *)
Definition decoded_orders (c : consumer) (n : nat) : list order :=
  flat_map (fun i => match polled (c i) with
                     | PollMessage (JsonOrder o) => [o]
                     | _ => []
                     end) (seq 0 n).

(** The consumer answers its first polls with the orders of [restored],
    one per poll, and every later poll is idle. *)
Definition delivers (c : consumer) (restored : list order) : Prop :=
  (forall i o, nth_error restored i = Some o ->
               polled (c i) = PollMessage (JsonOrder o)) /\
  (forall i, (List.length restored <= i)%nat ->
             is_idle (polled (c i)) = true).

(** ** The steps of the pipeline, in order *)

Definition pipeline (n : nat) : list effect :=
  [EffProduce n; EffBackup; EffDeleteTopic; EffCreateTopic; EffRestore;
   EffConsume; EffCompare].

(** The sub-process exited with status 0. *)
Definition exited_zero (r : process_result) : Prop :=
  exists stdout stderr, r = Completed 0 stdout stderr.

(** The backup times out; everything else would work. *)
Definition backup_fails_world : world :=
  mkWorld 2 (fun _ => Acked) TimeoutExpired exit_ok exit_ok exit_ok
          (replay_consumer (sample_orders 2)) 0.

(** The restore exits with status 1 and the topic deletion fails too. *)
Definition restore_fails_world : world :=
  mkWorld 2 (fun _ => Acked) exit_ok exit_1 exit_ok exit_1
          (replay_consumer (sample_orders 2)) 0.

(** [--messages 0]. *)
Definition zero_world : world :=
  mkWorld 0 (fun _ => Acked) exit_ok exit_ok exit_ok exit_ok
          silent_consumer 0.

(** [results.get('scenarios', {}).get(name, {})]: the sub-document the
    formatter reads for one scenario. *)
Definition section_of (results : json) (name : string) : outcome json :=
  scenarios <- get results "scenarios" (JObj []) ;;
  get scenarios name (JObj []).

(** ** [generate_report]: the partition scaling table *)

(** The arithmetic of this table can also fail on a division: a
    computation returns, raises one of the exceptions above, or raises
    [ZeroDivisionError]. *)
Inductive computed (A : Type) : Type :=
  | Value (a : A)
  | Error (e : exn)
  | ZeroDivisionError.

Arguments Value {A} a.
Arguments Error {A} e.
Arguments ZeroDivisionError {A}.

Definition lift {A : Type} (x : outcome A) : computed A :=
  match x with
  | Returned a => Value a
  | Raised e => Error e
  end.

Definition and_then {A B : Type} (x : computed A) (f : A -> computed B)
  : computed B :=
  match x with
  | Value a => f a
  | Error e => Error e
  | ZeroDivisionError => ZeroDivisionError
  end.

Notation "x <~ c1 ;; c2" := (and_then c1 (fun x => c2))
  (at level 61, c1 at next level, right associativity).

(** A number as an operand of [>] or [/]: anything else is a
    [TypeError]. *)
Definition as_operand (x : json) : outcome Q :=
  match x with
  | JNum q => Returned q
  | JBool b => Returned (if b then 1%Q else 0%Q)
  | _ => Raised TypeError
  end.

(** One line of the scaling table: the cells between the bars. *)
Record scaling_row : Type := mkScaling {
  partitions : string;
  throughput_mbps : Q;
  scaling_factor : Q
}.

Section ScalingTable.
(** [true_divide a b] is what Python's [a / b] returns for a non-zero
    [b]: the quotient as a float, that is, after rounding. *)
Context (true_divide : Q -> Q -> Q).

(** [a / b] *)
Definition py_div (a b : Q) : computed Q :=
  if Qeq_bool b 0 then ZeroDivisionError else Value (true_divide a b).

(** [factor = mbps / baseline if baseline > 0 else 0] *)
Definition factor_of (mbps baseline : json) : computed Q :=
  b <~ lift (as_operand baseline) ;;
  if negb (Qle_bool b 0) then
    m <~ lift (as_operand mbps) ;;
    py_div m b
  else Value 0%Q.

(** The body of [for p in ['1', '4', '8']], for the fields [d] of the
    scaling document. *)
Fixpoint scaling_loop (d : list (string * json)) (baseline : json)
  (ps : list string) : computed (list scaling_row) :=
  match ps with
  | [] => Value []
  | p :: ps' =>
      match lookup d p with
      | Some entry =>
          mbps <~ lift (get entry "backup_mbps" (JNum 0)) ;;
          factor <~ factor_of mbps baseline ;;
          shown <~ lift (as_number mbps) ;;
          rest <~ scaling_loop d baseline ps' ;;
          Value (mkScaling p shown factor :: rest)
      | None => scaling_loop d baseline ps'
      end
  end.

(** Lines 152 to 166 of [generate_report]: the rows of the scaling
    table, for the [scenarios] document. *)
Definition scaling_rows (scenarios : json) : computed (list scaling_row) :=
  scaling <~ lift (get scenarios "concurrent-partitions" (JObj [])) ;;
  if truthy scaling then
    match scaling with
    | JObj d =>
        one <~ lift (get scaling "1" (JObj [])) ;;
        baseline <~ lift (get one "backup_mbps" (JNum 1)) ;;
        scaling_loop d baseline ["1"; "4"; "8"]
    | _ => Error AttributeError
    end
  else Value [].
End ScalingTable.


(** A stand-in for float division in the sample tables: the quotient
    rounded down to thousandths. *)
Definition thousandths_divide (a b : Q) : Q :=
  inject_Z (Qfloor (a / b * 1000)) / 1000.

(** The document [main] of [generate_report.py] formats when the
    results file does not exist. *)
Definition fallback_results : json :=
  JObj [("profile", JStr "quick");
        ("data_size_mb", JNum 100);
        ("iterations", JNum 1);
        ("scenarios",
         JObj [("throughput",
                JObj [("backup_mbps", JNum 0); ("restore_mbps", JNum 0);
                      ("duration_s", JNum 0)]);
               ("compression", JObj []);
               ("latency", JObj [])])].

(** A results document whose sections lack their headline numbers. *)
Definition partial_results : json :=
  JObj [("scenarios",
         JObj [("throughput", JObj [("restore_mbps", JNum 90)]);
               ("compression", JObj [("lz4", JObj [("ratio", JNum 2)])]);
               ("latency", JObj [("fetch_p50_ms", JNum 5)])])].


(** A scaling document whose baseline is 0. *)
Definition zero_baseline_scenarios : json :=
  JObj [("concurrent-partitions",
         JObj [("1", JObj [("backup_mbps", JNum 0)]);
               ("4", JObj [("backup_mbps", JNum 120)])])].


(** The random source keeps to the documented ranges of [randint],
    [choice] and [uniform]. *)
Definition honours_ranges {G : Type} (amb : ambient G) : Prop :=
  (forall a b g, a <= b -> a <= fst (randint amb a b g) <= b) /\
  (forall xs g, xs <> [] -> In (fst (choice amb xs g)) xs) /\
  (forall a b g, a <= b ->
                 100 * a <= fst (uniform_round2 amb a b g) <= 100 * b).

(** The first order generated under [counter_ambient]. *)
Definition first_sample : order :=
  mkOrder "PY-ORD-0001" "CUST-001" "Gadget" 1002 "2024-01-01T00:00:00Z".

(** ** What the comparator has to report *)

(** The pairs the loop of [compare_messages] walks through. *)
Definition sorted_pairs (original restored : list order)
  : list (order * order) :=
  combine (sorted_by_order_id original) (sorted_by_order_id restored).

(** A pair whose keys or whose amounts differ. *)
Definition disagree (p : order * order) : bool :=
  negb (String.eqb (order_id (fst p)) (order_id (snd p)))
  || negb (Z.eqb (amount (fst p)) (amount (snd p))).

(** The line due for such a pair: the key mismatch goes first. *)
Definition mismatch_line (p : order * order) : output :=
  if String.eqb (order_id (fst p)) (order_id (snd p))
  then OutAmountMismatch (order_id (fst p))
  else OutKeyMismatch (order_id (fst p)) (order_id (snd p)).

(* ================================================================= *)
(** * Properties *)

Example compare_same :
  compare_messages
    [mkOrder "PY-ORD-0002" "CUST-007" "Tool" 1999 "t";
     mkOrder "PY-ORD-0001" "CUST-010" "Widget" 1000 "t"]
    [mkOrder "PY-ORD-0001" "CUST-010" "Widget" 1000 "t";
     mkOrder "PY-ORD-0002" "CUST-007" "Tool" 1999 "t"]
  = (true, [OkAllMatch 2]).
Proof. reflexivity. Qed.

Example compare_amount_off :
  compare_messages
    [mkOrder "PY-ORD-0002" "CUST-007" "Tool" 1999 "t";
     mkOrder "PY-ORD-0001" "CUST-010" "Widget" 1000 "t"]
    [mkOrder "PY-ORD-0001" "CUST-010" "Widget" 1001 "t";
     mkOrder "PY-ORD-0002" "CUST-007" "Tool" 1999 "t"]
  = (false, [OutAmountMismatch "PY-ORD-0001"; ErrMismatchesFound 1]).
Proof. reflexivity. Qed.

(** ** The order on keys *)

Lemma ascii_compare_lt_trans a b c :
  Ascii.compare a b = Lt -> Ascii.compare b c = Lt -> Ascii.compare a c = Lt.
Proof.
  unfold Ascii.compare. rewrite !N.compare_lt_iff. apply N.lt_trans.
Qed.

Lemma string_compare_lt_trans s1 :
  forall s2 s3,
    String.compare s1 s2 = Lt -> String.compare s2 s3 = Lt ->
    String.compare s1 s3 = Lt.
Proof.
  induction s1 as [|a s1 IH]; intros [|b s2] [|c s3]; simpl;
    try congruence.
  destruct (Ascii.compare a b) eqn:Hab; try discriminate;
    destruct (Ascii.compare b c) eqn:Hbc; try discriminate; intros H1 H2.
  - apply Ascii.compare_eq_iff in Hab. subst. rewrite Hbc. eauto.
  - apply Ascii.compare_eq_iff in Hab. subst. now rewrite Hbc.
  - apply Ascii.compare_eq_iff in Hbc. subst. now rewrite Hab.
  - now rewrite (ascii_compare_lt_trans _ _ _ Hab Hbc).
Qed.

Lemma string_leb_trans s1 s2 s3 :
  String.leb s1 s2 = true -> String.leb s2 s3 = true ->
  String.leb s1 s3 = true.
Proof.
  unfold String.leb.
  destruct (String.compare s1 s2) eqn:H12; try discriminate;
    destruct (String.compare s2 s3) eqn:H23; try discriminate; intros _ _.
  - apply String.compare_eq_iff in H12. subst. now rewrite H23.
  - apply String.compare_eq_iff in H12. subst. now rewrite H23.
  - apply String.compare_eq_iff in H23. subst. now rewrite H12.
  - now rewrite (string_compare_lt_trans _ _ _ H12 H23).
Qed.

Lemma key_le_trans x y z : key_le x y -> key_le y z -> key_le x z.
Proof. apply string_leb_trans. Qed.

Lemma key_le_total_false x y :
  String.leb (order_id x) (order_id y) = false -> key_le y x.
Proof.
  intros H. destruct (String.leb_total (order_id x) (order_id y)) as [E|E].
  - congruence.
  - exact E.
Qed.

Lemma key_le_antisym x y : key_le x y -> key_le y x -> order_id x = order_id y.
Proof. apply String.leb_antisym. Qed.

(** ** [sorted] returns a sorted rearrangement *)

Lemma insert_by_key_perm x l : Permutation (x :: l) (insert_by_key x l).
Proof.
  induction l as [|y l IH]; simpl.
  - reflexivity.
  - destruct (String.leb (order_id x) (order_id y)).
    + reflexivity.
    + rewrite perm_swap. now apply perm_skip.
Qed.

Lemma sorted_by_order_id_perm l : Permutation l (sorted_by_order_id l).
Proof.
  induction l as [|x l IH]; simpl.
  - constructor.
  - rewrite <- insert_by_key_perm. now apply perm_skip.
Qed.

Lemma sorted_by_order_id_length l :
  List.length (sorted_by_order_id l) = List.length l.
Proof. symmetry. apply Permutation_length, sorted_by_order_id_perm. Qed.

Lemma insert_by_key_sorted x l :
  StronglySorted key_le l -> StronglySorted key_le (insert_by_key x l).
Proof.
  induction l as [|y l IH]; simpl; intros Hs.
  - repeat constructor.
  - destruct (String.leb (order_id x) (order_id y)) eqn:E.
    + constructor; [exact Hs|].
      constructor; [exact E|].
      inversion Hs as [|? ? _ Hall]; subst.
      eapply Forall_impl; [|exact Hall].
      intros z Hz. eapply key_le_trans; eauto.
    + inversion Hs as [|? ? Hs' Hall]; subst.
      constructor; [now apply IH|].
      eapply Permutation_Forall; [apply insert_by_key_perm|].
      constructor; [now apply key_le_total_false | exact Hall].
Qed.

Lemma sorted_by_order_id_sorted l :
  StronglySorted key_le (sorted_by_order_id l).
Proof.
  induction l as [|x l IH]; simpl.
  - constructor.
  - now apply insert_by_key_sorted.
Qed.

(** With pairwise distinct keys a sorted list is determined by its
    elements. *)
Lemma sorted_unique l1 :
  forall l2,
    StronglySorted key_le l1 -> StronglySorted key_le l2 ->
    NoDup (map order_id l1) -> Permutation l1 l2 -> l1 = l2.
Proof.
  induction l1 as [|a l1 IH]; intros l2 S1 S2 ND P.
  - now apply Permutation_nil in P.
  - destruct l2 as [|b l2];
      [now apply Permutation_sym, Permutation_nil in P|].
    inversion S1 as [|? ? S1' A1]; subst.
    inversion S2 as [|? ? S2' A2]; subst.
    inversion ND as [|? ? Hnin ND']; subst.
    assert (Hab : a = b).
    { assert (Ha : In a (b :: l2))
        by (eapply Permutation_in; [exact P | now left]).
      assert (Hb : In b (a :: l1))
        by (eapply Permutation_in;
            [apply Permutation_sym; exact P | now left]).
      destruct Ha as [Ha|Ha]; [now symmetry|].
      destruct Hb as [Hb|Hb]; [exact Hb|].
      exfalso. apply Hnin.
      rewrite Forall_forall in A1, A2.
      rewrite (key_le_antisym a b (A1 _ Hb) (A2 _ Ha)).
      now apply in_map. }
    subst b. f_equal.
    apply IH; auto. eapply Permutation_cons_inv; exact P.
Qed.

Lemma sorted_by_order_id_permutation l1 l2 :
  NoDup (map order_id l1) -> Permutation l1 l2 ->
  sorted_by_order_id l1 = sorted_by_order_id l2.
Proof.
  intros ND P. apply sorted_unique.
  - apply sorted_by_order_id_sorted.
  - apply sorted_by_order_id_sorted.
  - eapply Permutation_NoDup; [|exact ND].
    apply Permutation_map, sorted_by_order_id_perm.
  - rewrite <- (sorted_by_order_id_perm l1), <- (sorted_by_order_id_perm l2).
    exact P.
Qed.

(** ** The comparison loop *)

Lemma compare_pair_same m x : compare_pair m x x = (m, []).
Proof.
  unfold compare_pair. now rewrite String.eqb_refl, Z.eqb_refl.
Qed.

Lemma compare_loop_same l : forall m, compare_loop m (combine l l) = (m, []).
Proof.
  induction l as [|x l IH]; intros m; simpl.
  - reflexivity.
  - rewrite compare_pair_same, IH. reflexivity.
Qed.

(** ** The comparator *)

(** C1, as stated, fails when a key occurs twice: [dup_actual] is a
    rearrangement of [dup_expected] of the same length, and the
    comparator reports two amount mismatches and returns [False]. *)
Lemma compare_permutation_duplicate_keys :
  Permutation dup_expected dup_actual /\
  List.length dup_expected = List.length dup_actual /\
  compare_messages dup_expected dup_actual
  = (false, [OutAmountMismatch "PY-ORD-0001";
             OutAmountMismatch "PY-ORD-0001"; ErrMismatchesFound 2]).
Proof.
  split; [apply perm_swap | split; reflexivity].
Qed.

(** C1 (amended): when the keys of [expected] are pairwise distinct and
    [actual] is any rearrangement of [expected], [compare_messages]
    returns [True], counts zero mismatches and prints no per-record
    line, whatever the order of either list. *)
Theorem compare_permutation_distinct_keys (expected actual : list order) :
  NoDup (map order_id expected) ->
  Permutation expected actual ->
  compare_messages expected actual
  = (true, [OkAllMatch (List.length expected)]) /\
  count_mismatches expected actual = 0%nat /\
  mismatch_lines (snd (compare_messages expected actual)) = [].
Proof.
  intros ND P.
  assert (Hcmp : compare_messages expected actual
                 = (true, [OkAllMatch (List.length expected)])).
  { unfold compare_messages.
    rewrite <- (Permutation_length P), Nat.eqb_refl. simpl.
    rewrite <- (sorted_by_order_id_permutation _ _ ND P).
    now rewrite compare_loop_same. }
  split; [exact Hcmp|]. split.
  - unfold count_mismatches.
    rewrite <- (sorted_by_order_id_permutation _ _ ND P).
    now rewrite compare_loop_same.
  - now rewrite Hcmp.
Qed.

Lemma compare_permutation_distinct_keys_witness :
  compare_messages three_orders three_orders_shuffled
  = (true, [OkAllMatch 3]) /\
  count_mismatches three_orders three_orders_shuffled = 0%nat /\
  mismatch_lines (snd (compare_messages three_orders three_orders_shuffled))
  = [].
Proof.
  apply (compare_permutation_distinct_keys three_orders three_orders_shuffled).
  - repeat constructor; simpl; intuition discriminate.
  - unfold three_orders, three_orders_shuffled.
    eapply perm_trans; [apply perm_skip, perm_swap | apply perm_swap].
Defined.

(** C2: when the two lists differ in length, [compare_messages] returns
    [False] after printing only the count-mismatch line: no per-record
    line is printed, the sorted lists are not inspected. *)
Theorem compare_count_mismatch_short_circuit (expected actual : list order) :
  List.length expected <> List.length actual ->
  compare_messages expected actual
  = (false, [ErrCountMismatch (List.length expected) (List.length actual)])
  /\ mismatch_lines (snd (compare_messages expected actual)) = [].
Proof.
  intros Hlen.
  assert (Hcmp : compare_messages expected actual
                 = (false, [ErrCountMismatch (List.length expected)
                                             (List.length actual)])).
  { unfold compare_messages.
    apply Nat.eqb_neq in Hlen. now rewrite Hlen. }
  split; [exact Hcmp | now rewrite Hcmp].
Qed.

Lemma compare_count_mismatch_short_circuit_witness :
  compare_messages dup_expected (tl dup_actual)
  = (false, [ErrCountMismatch 2 1]) /\
  mismatch_lines (snd (compare_messages dup_expected (tl dup_actual))) = [].
Proof.
  apply (compare_count_mismatch_short_circuit dup_expected (tl dup_actual)).
  simpl. lia.
Defined.

(** ** The dataset generator *)

Example generate_two :
  fst (generate_test_messages counter_ambient 2 0)
  = Returned [mkOrder "PY-ORD-0001" "CUST-001" "Gadget" 1002
                      "2024-01-01T00:00:00Z";
              mkOrder "PY-ORD-0002" "CUST-010" "Device" 1011
                      "2024-01-01T00:00:00Z"].
Proof. reflexivity. Qed.

Example format_0d_samples :
  format_0d 4 7 = "0007" /\ format_0d 4 12345 = "12345" /\
  format_0d 4 (-5) = "-005" /\ format_0d 3 100 = "100".
Proof. repeat split. Qed.

Lemma parse_zeros k s :
  parse_decimal (zeros k ++ s) = parse_decimal s.
Proof.
  induction k as [|k IH]; simpl; [reflexivity|].
  unfold parse_decimal in *. simpl.
  destruct (NilEmpty.uint_of_string (zeros k ++ s)) as [d|];
    destruct (NilEmpty.uint_of_string s) as [d'|]; simpl in *;
    congruence.
Qed.

Lemma parse_digits n : parse_decimal (digits n) = Some n.
Proof.
  unfold parse_decimal, digits.
  rewrite NilEmpty.usu. simpl. now rewrite DecimalN.Unsigned.of_to.
Qed.

Lemma parse_format_0d width i :
  0 <= i -> parse_decimal (format_0d width i) = Some (Z.to_N i).
Proof.
  intros Hi. unfold format_0d.
  destruct (i <? 0) eqn:E; [apply Z.ltb_lt in E; lia|].
  unfold zfill. now rewrite parse_zeros, parse_digits.
Qed.

Lemma format_0d_inj width i j :
  0 <= i -> 0 <= j -> format_0d width i = format_0d width j -> i = j.
Proof.
  intros Hi Hj E.
  apply (f_equal parse_decimal) in E.
  rewrite !parse_format_0d in E by assumption.
  injection E as E. now apply Z2N.inj.
Qed.

Lemma range_length a b : List.length (range a b) = Z.to_nat (b - a).
Proof. unfold range. now rewrite length_map, length_seq. Qed.

Lemma range_In a b i : In i (range a b) -> a <= i < b.
Proof.
  unfold range. rewrite in_map_iff. intros [k [<- Hk]].
  apply in_seq in Hk. lia.
Qed.

Lemma range_NoDup a b : NoDup (range a b).
Proof.
  unfold range. apply NoDup_map_NoDup_ForallPairs; [|apply seq_NoDup].
  intros x y _ _ E. lia.
Qed.

Section GeneratorFacts.
Context {G : Type} (amb : ambient G).

(** The keys are a function of the indices alone: the random source does
    not enter them. *)
Lemma generate_loop_keys indices :
  forall g,
    map order_id (fst (generate_loop amb indices g))
    = map (fun i => ("PY-ORD-" ++ format_0d 4 i)%string) indices.
Proof.
  induction indices as [|i indices IH]; intros g; simpl; [reflexivity|].
  destruct (randint amb 1 100 g) as [c g1].
  destruct (choice amb products g1) as [p g2].
  destruct (uniform_round2 amb 10 1000 g2) as [a g3].
  destruct (strftime_gmtime amb g3) as [t g4].
  specialize (IH g4).
  destruct (generate_loop amb indices g4) as [rest g5].
  simpl in *. now rewrite IH.
Qed.

Lemma generate_returns count g :
  fst (generate_test_messages amb count g)
  = Returned (fst (generate_loop amb (range 1 (count + 1)) g)).
Proof.
  unfold generate_test_messages.
  now destruct (generate_loop amb (range 1 (count + 1)) g).
Qed.

(** C6: for every positive [count] and whatever the random source
    answers, [generate_test_messages] returns exactly [count] orders
    whose [order_id]s are pairwise distinct; the [order_id]s are those of
    the indices 1, ..., [count], in that order. *)
Theorem generate_count_distinct_keys (count : Z) (g : G) :
  0 < count ->
  exists messages,
    fst (generate_test_messages amb count g) = Returned messages /\
    Z.of_nat (List.length messages) = count /\
    NoDup (map order_id messages) /\
    map order_id messages
    = map (fun i => ("PY-ORD-" ++ format_0d 4 i)%string)
          (range 1 (count + 1)).
Proof.
  intros Hpos.
  exists (fst (generate_loop amb (range 1 (count + 1)) g)).
  split; [apply generate_returns|].
  pose proof (generate_loop_keys (range 1 (count + 1)) g) as Hkeys.
  split; [|split; [|exact Hkeys]].
  - rewrite <- (length_map order_id), Hkeys, length_map, range_length. lia.
  - rewrite Hkeys.
    apply NoDup_map_NoDup_ForallPairs; [|apply range_NoDup].
    intros i j Hi Hj E.
    apply range_In in Hi, Hj.
    injection E as E. apply (format_0d_inj 4); lia || assumption.
Qed.

(** C7 (amended): for every [count <= 0] the generator returns the
    empty list of orders and leaves the random source untouched; the
    loop body never runs and nothing is raised. *)
Theorem generate_nonpositive_empty (count : Z) (g : G) :
  count <= 0 ->
  generate_test_messages amb count g = (Returned [], g).
Proof.
  intros Hle. unfold generate_test_messages, range.
  replace (Z.to_nat (count + 1 - 1)) with 0%nat by lia. reflexivity.
Qed.
End GeneratorFacts.

Lemma generate_count_distinct_keys_witness :
  exists messages,
    fst (generate_test_messages counter_ambient 50 0) = Returned messages /\
    Z.of_nat (List.length messages) = 50 /\
    NoDup (map order_id messages) /\
    map order_id messages
    = map (fun i => ("PY-ORD-" ++ format_0d 4 i)%string) (range 1 (50 + 1)).
Proof.
  apply (generate_count_distinct_keys counter_ambient 50 0). lia.
Defined.

(** C7, as stated, fails: for [count = 0] the generator returns the
    empty list and raises nothing. *)
Lemma generate_zero_returns :
  generate_test_messages counter_ambient 0 0 = (Returned [], 0) /\
  forall e, fst (generate_test_messages counter_ambient 0 0) <> Raised e.
Proof.
  split; [reflexivity | intros e; discriminate].
Qed.

Lemma generate_nonpositive_empty_witness :
  generate_test_messages counter_ambient (-3) 5 = (Returned [], 5).
Proof.
  apply (generate_nonpositive_empty counter_ambient (-3) 5). lia.
Defined.

(** ** The drain loop *)

Lemma handle_poll_clock msg st :
  clock (snd (handle_poll msg st)) = clock st.
Proof. destruct msg as [|[|code]|[o| |]]; reflexivity. Qed.

(** More fuel does not change a result already reached. *)
Lemma consume_loop_more_fuel c start timeout fuel :
  forall st res fuel',
    consume_loop fuel c start timeout st = Some res ->
    (fuel <= fuel')%nat ->
    consume_loop fuel' c start timeout st = Some res.
Proof.
  induction fuel as [|fuel IH]; intros st res fuel' H Hle;
    [discriminate|].
  destruct fuel' as [|fuel']; [lia|]. simpl in *.
  destruct (empty_polls st <? max_empty_polls); [|exact H].
  destruct (clock st - start >? timeout); [exact H|].
  destruct (handle_poll (polled (c (polls_done st)))
              (after_poll (c (polls_done st)) st)) as [[u|e] st1];
    [|exact H].
  apply IH; [exact H | lia].
Qed.

(** The loop ends: every iteration that polls lets at least one
    millisecond pass, so the timeout test fires at the latest after
    [timeout + 1] polls. *)
Lemma consume_loop_terminates c start timeout :
  timely c ->
  forall fuel st,
    (S (Z.to_nat (timeout - (clock st - start) + 1)) <= fuel)%nat ->
    exists res, consume_loop fuel c start timeout st = Some res.
Proof.
  intros Hc. induction fuel as [|fuel IH]; intros st Hfuel; [lia|].
  simpl.
  destruct (empty_polls st <? max_empty_polls); [|eauto].
  destruct (clock st - start >? timeout) eqn:Ht; [eauto|].
  rewrite Z.gtb_ltb in Ht. apply Z.ltb_ge in Ht.
  set (ev := c (polls_done st)).
  pose proof (handle_poll_clock (polled ev) (after_poll ev st)) as Hclk.
  destruct (handle_poll (polled ev) (after_poll ev st)) as [[u|e] st1];
    [|eauto].
  apply IH. simpl in Hclk. rewrite Hclk.
  pose proof (Hc (polls_done st)) as Hd. fold ev in Hd. lia.
Qed.

(** When the loop ends, at most [timeout] plus one poll interval has
    passed since [start_time]. *)
Lemma consume_loop_clock_bound c start timeout :
  timely c -> 0 <= timeout ->
  forall fuel st res,
    clock st - start <= timeout + poll_interval ->
    consume_loop fuel c start timeout st = Some res ->
    clock (snd res) - start <= timeout + poll_interval.
Proof.
  intros Hc Ht0. induction fuel as [|fuel IH]; intros st res Hst H;
    [discriminate|].
  simpl in H.
  destruct (empty_polls st <? max_empty_polls);
    [|injection H as <-; exact Hst].
  destruct (clock st - start >? timeout) eqn:Ht;
    [injection H as <-; exact Hst|].
  rewrite Z.gtb_ltb in Ht. apply Z.ltb_ge in Ht.
  set (ev := c (polls_done st)) in *.
  pose proof (handle_poll_clock (polled ev) (after_poll ev st)) as Hclk.
  pose proof (Hc (polls_done st)) as Hd. fold ev in Hd.
  destruct (handle_poll (polled ev) (after_poll ev st)) as [[u|e] st1];
    simpl in Hclk.
  - apply (IH st1); [lia | exact H].
  - injection H as <-. simpl. lia.
Qed.

(** A drain that only sees idle polls stops on the idle counter, after
    [max_empty_polls - empty_polls] polls. *)
Lemma consume_loop_idle c start timeout :
  timely c -> (forall n, is_idle (polled (c n)) = true) ->
  max_empty_polls * poll_interval <= timeout ->
  forall (k : nat) st fuel,
    empty_polls st = max_empty_polls - Z.of_nat k ->
    (k <= 10)%nat ->
    clock st - start <= empty_polls st * poll_interval ->
    (k < fuel)%nat ->
    exists st',
      consume_loop fuel c start timeout st = Some (Returned (messages st), st')
      /\ clock st' - start <= max_empty_polls * poll_interval
      /\ empty_polls st' = max_empty_polls
      /\ polls_done st' = (polls_done st + k)%nat
      /\ printed st' = printed st.
Proof.
  intros Hc Hidle Hto. unfold max_empty_polls, poll_interval in *.
  induction k as [|k IH]; intros st fuel He Hk Hclk Hfuel;
    (destruct fuel as [|fuel]; [lia|]); simpl; unfold max_empty_polls.
  - replace (empty_polls st <? 10) with false
      by (symmetry; apply Z.ltb_ge; lia).
    exists st. repeat split; lia.
  - replace (empty_polls st <? 10) with true
      by (symmetry; apply Z.ltb_lt; lia).
    replace (clock st - start >? timeout) with false
      by (symmetry; rewrite Z.gtb_ltb; apply Z.ltb_ge; lia).
    set (ev := c (polls_done st)).
    pose proof (Hc (polls_done st)) as Hd. fold ev in Hd.
    pose proof (Hidle (polls_done st)) as Hi. fold ev in Hi.
    unfold poll_interval in Hd.
    assert (Hstep : handle_poll (polled ev) (after_poll ev st)
                    = (Returned tt,
                       set_empty_polls (empty_polls st + 1)
                                       (after_poll ev st))).
    { destruct (polled ev) as [|[|code]|p]; try discriminate; reflexivity. }
    rewrite Hstep.
    destruct (IH (set_empty_polls (empty_polls st + 1) (after_poll ev st))
                 fuel) as [st' [H1 [H2 [H3 [H4 H5]]]]];
      try (unfold set_empty_polls, after_poll;
           cbn [empty_polls clock polls_done messages printed]; lia).
    unfold set_empty_polls, after_poll in H1, H4, H5.
    cbn [empty_polls clock polls_done messages printed] in H1, H4, H5.
    exists st'. repeat split; try assumption; lia.
Qed.

(** A drain that only sees hard errors and records that are not JSON
    never advances the idle counter: if it ends, it ends on the
    timeout test. *)
Lemma consume_loop_busy c start timeout :
  (forall n, is_hard_error (polled (c n)) || is_not_json (polled (c n))
             = true) ->
  forall fuel st res,
    empty_polls st = 0 ->
    consume_loop fuel c start timeout st = Some res ->
    fst res = Returned (messages st) /\
    empty_polls (snd res) = 0 /\
    timeout < clock (snd res) - start /\
    exists out, printed (snd res) = out ++ [OutTimeoutReached].
Proof.
  intros Hbusy. induction fuel as [|fuel IH]; intros st res He H;
    [discriminate|].
  simpl in H. rewrite He in H. cbn [Z.ltb Z.compare max_empty_polls] in H.
  destruct (clock st - start >? timeout) eqn:Ht.
  - injection H as <-. cbn [fst snd print empty_polls clock printed].
    rewrite Z.gtb_ltb in Ht. apply Z.ltb_lt in Ht.
    repeat split; try assumption. now exists (printed st).
  - set (ev := c (polls_done st)) in *.
    pose proof (Hbusy (polls_done st)) as Hb. fold ev in Hb.
    destruct (polled ev) as [|[|code]|[o| |]]; try discriminate Hb;
      cbn [handle_poll] in H.
    + apply IH in H; [exact H | exact He].
    + apply IH in H; [exact H | reflexivity].
Qed.

(** C8: with a non-negative [timeout], and every poll taking some time
    and at most the poll interval, [consume_messages] ends for every
    sequence of poll results (it returns or raises), and at its end at
    most [timeout] plus one poll interval has passed.  Against a topic
    that never yields a message (every poll idle), with the ten-poll
    idle threshold and the 30 second default timeout, it returns the
    empty list after ten polls, within 30 seconds. *)
Theorem drain_terminates_within_bound (c : consumer) (start timeout : Z) :
  timely c -> 0 <= timeout ->
  (exists res,
      (forall fuel, (enough_fuel timeout <= fuel)%nat ->
                    consume_messages fuel c start timeout = Some res) /\
      clock (snd res) - start <= timeout + poll_interval) /\
  ((forall n, is_idle (polled (c n)) = true) ->
   exists st',
     (forall fuel, (enough_fuel default_timeout <= fuel)%nat ->
                   consume_messages fuel c start default_timeout
                   = Some (Returned [], st')) /\
     polls_done st' = 10%nat /\
     clock st' - start <= default_timeout).
Proof.
  intros Hc Ht. split.
  - destruct (consume_loop_terminates c start timeout Hc
                (enough_fuel timeout) (mkDrain [] 0 start 0%nat []))
      as [res Hres].
    { unfold enough_fuel. cbn [clock]. apply le_n_S. lia. }
    exists res. split.
    + intros fuel Hfuel. unfold consume_messages.
      eapply consume_loop_more_fuel; eauto.
    + eapply (consume_loop_clock_bound c start timeout Hc Ht);
        [|exact Hres].
      cbn [clock]. unfold poll_interval. lia.
  - intros Hidle.
    destruct (consume_loop_idle c start default_timeout Hc Hidle
                ltac:(vm_compute; discriminate)
                10%nat (mkDrain [] 0 start 0%nat []) 11%nat)
      as [st' [H1 [H2 [H3 [H4 H5]]]]];
      try (cbn [empty_polls clock]; unfold max_empty_polls; lia).
    exists st'. split; [|split].
    + intros fuel Hfuel. unfold consume_messages.
      eapply consume_loop_more_fuel; [exact H1|].
      unfold enough_fuel, default_timeout in Hfuel. lia.
    + exact H4.
    + unfold max_empty_polls, poll_interval in H2.
      unfold default_timeout. lia.
Qed.

Lemma silent_consumer_timely : timely silent_consumer.
Proof. intros n. unfold silent_consumer, poll_interval. simpl. lia. Qed.

Lemma drain_terminates_within_bound_witness :
  (exists res,
      (forall fuel, (enough_fuel 30000 <= fuel)%nat ->
                    consume_messages fuel silent_consumer 0 30000 = Some res)
      /\ clock (snd res) - 0 <= 30000 + poll_interval) /\
  (exists st',
      (forall fuel, (enough_fuel default_timeout <= fuel)%nat ->
                    consume_messages fuel silent_consumer 0 default_timeout
                    = Some (Returned [], st')) /\
      polls_done st' = 10%nat /\
      clock st' - 0 <= default_timeout).
Proof.
  destruct (drain_terminates_within_bound silent_consumer 0 30000
              silent_consumer_timely ltac:(lia)) as [H1 H2].
  split; [exact H1 | apply H2; intros n; reflexivity].
Defined.

Example drain_silent :
  consume_messages 11 silent_consumer 0 default_timeout
  = Some (Returned [], mkDrain [] 10 10000 10 []).
Proof. reflexivity. Qed.

Lemma failing_consumer_timely : timely failing_consumer.
Proof. intros n. unfold failing_consumer, poll_interval. simpl. lia. Qed.

Lemma garbage_consumer_timely : timely garbage_consumer.
Proof. intros n. unfold garbage_consumer, poll_interval. simpl. lia. Qed.

(** C4, as stated, fails: after three idle polls a hard error leaves the
    idle counter at 3 where an empty poll moves it to 4, and a drain
    that sees a hard error on every poll runs 31 polls with the counter
    at 0 and leaves on the timeout test, not on the idle threshold. *)
Lemma hard_error_not_counted_as_idle :
  empty_polls (snd (handle_poll (PollError (OTHER_ERROR (-195))) three_idle))
  = 3 /\
  empty_polls (snd (handle_poll PollNone three_idle)) = 4 /\
  consume_messages 40 failing_consumer 0 default_timeout
  = Some (Returned [],
          mkDrain [] 0 31000 31
                  (repeat ErrConsumerError 31 ++ [OutTimeoutReached])).
Proof. repeat split. Qed.

(** C4 (amended): a hard consumer error is printed and changes neither
    the idle counter nor the collected messages; the loop is not
    aborted.  Under a stream of consecutive hard errors the idle
    counter therefore stays at zero and the drain ends on the overall
    timeout alone: it returns the empty list once more than [timeout]
    has passed. *)
Theorem hard_error_keeps_idle_counter (c : consumer) (start timeout : Z) :
  (forall code st,
      handle_poll (PollError (OTHER_ERROR code)) st
      = (Returned tt, print ErrConsumerError st) /\
      empty_polls (print ErrConsumerError st) = empty_polls st /\
      messages (print ErrConsumerError st) = messages st) /\
  (timely c ->
   (forall n, is_hard_error (polled (c n)) = true) ->
   exists st',
     (forall fuel, (enough_fuel timeout <= fuel)%nat ->
                   consume_messages fuel c start timeout
                   = Some (Returned [], st')) /\
     empty_polls st' = 0 /\
     timeout < clock st' - start).
Proof.
  split; [intros code st; repeat split|].
  intros Hc Herr.
  destruct (consume_loop_terminates c start timeout Hc
              (enough_fuel timeout) (mkDrain [] 0 start 0%nat []))
    as [[r st'] Hres].
  { unfold enough_fuel. cbn [clock]. apply le_n_S. lia. }
  destruct (consume_loop_busy c start timeout
              ltac:(intros n; rewrite (Herr n); reflexivity)
              (enough_fuel timeout) (mkDrain [] 0 start 0%nat []) (r, st')
              eq_refl Hres) as [H1 [H2 [H3 _]]].
  cbn [fst snd messages] in *. subst r.
  exists st'. repeat split; try assumption.
  intros fuel Hfuel. unfold consume_messages.
  eapply consume_loop_more_fuel; eauto.
Qed.

Lemma hard_error_keeps_idle_counter_witness :
  exists st',
    (forall fuel, (enough_fuel 30000 <= fuel)%nat ->
                  consume_messages fuel failing_consumer 0 30000
                  = Some (Returned [], st')) /\
    empty_polls st' = 0 /\
    30000 < clock st' - 0.
Proof.
  apply (hard_error_keeps_idle_counter failing_consumer 0 30000).
  - exact failing_consumer_timely.
  - intros n. reflexivity.
Defined.

(** When a poll returns a record the idle counter is zero from then
    on, whatever decoding does: zero when the order is appended, zero
    when the payload is not JSON and the record is dropped, zero at the
    raise when it is not UTF-8.  A stream of records that are UTF-8 but
    not JSON therefore never lets the idle threshold fire: the drain
    collects nothing and ends on the overall timeout alone. *)
Lemma not_json_stream_ends_on_timeout (c : consumer) (start timeout : Z) :
  (forall p st, empty_polls (snd (handle_poll (PollMessage p) st)) = 0) /\
  (forall st,
      handle_poll (PollMessage NotJson) st
      = (Returned tt, print OutNotJson (set_empty_polls 0 st)) /\
      messages (print OutNotJson (set_empty_polls 0 st)) = messages st) /\
  (timely c ->
   (forall n, is_not_json (polled (c n)) = true) ->
   exists st',
     (forall fuel, (enough_fuel timeout <= fuel)%nat ->
                   consume_messages fuel c start timeout
                   = Some (Returned [], st')) /\
     empty_polls st' = 0 /\
     empty_polls st' < max_empty_polls /\
     timeout < clock st' - start).
Proof.
  split; [intros [o| |] st; reflexivity|].
  split; [intros st; split; reflexivity|].
  intros Hc Hund.
  destruct (consume_loop_terminates c start timeout Hc
              (enough_fuel timeout) (mkDrain [] 0 start 0%nat []))
    as [[r st'] Hres].
  { unfold enough_fuel. cbn [clock]. apply le_n_S. lia. }
  destruct (consume_loop_busy c start timeout
              ltac:(intros n; rewrite (Hund n); apply orb_true_r)
              (enough_fuel timeout) (mkDrain [] 0 start 0%nat []) (r, st')
              eq_refl Hres) as [H1 [H2 [H3 _]]].
  cbn [fst snd messages] in *. subst r.
  exists st'. repeat split; try assumption.
  - intros fuel Hfuel. unfold consume_messages.
    eapply consume_loop_more_fuel; eauto.
  - rewrite H2. reflexivity.
Qed.

(** C10: the claim does not hold of [consume_messages] for every
    undecodable record.  The counter is reset before decoding, but only
    [json.JSONDecodeError] is caught: a record whose payload is not
    UTF-8 raises [UnicodeDecodeError] out of the loop at the first
    poll, with the counter at zero, where a stream of records that are
    not JSON runs 31 polls and leaves on the timeout. *)
Theorem non_utf8_record_aborts_drain :
  consume_messages 40 binary_consumer 0 default_timeout
  = Some (Raised UnicodeDecodeError, mkDrain [] 0 1000 1 []) /\
  consume_messages 40 garbage_consumer 0 default_timeout
  = Some (Returned [],
          mkDrain [] 0 31000 31
                  (repeat OutNotJson 31 ++ [OutTimeoutReached])).
Proof. split; reflexivity. Qed.

Example drain_garbage :
  consume_messages 40 garbage_consumer 0 default_timeout
  = Some (Returned [],
          mkDrain [] 0 31000 31
                  (repeat OutNotJson 31 ++ [OutTimeoutReached])).
Proof. reflexivity. Qed.

(** ** The pipeline *)

Section MainFacts.
Context {G : Type} (amb : ambient G).

Lemma generate_loop_length indices :
  forall g, List.length (fst (generate_loop amb indices g))
            = List.length indices.
Proof.
  intros g. rewrite <- (length_map order_id), generate_loop_keys.
  apply length_map.
Qed.

End MainFacts.

(** C3: the claim does not hold of [main].  With three records
    published and one acknowledged when the flush returns,
    [produce_messages] prints the count 1 and returns nothing, no
    failure is reported, and the pipeline runs the backup and every
    later step and exits with status 0. *)
Theorem shortfall_run_reaches_backup :
  delivered_count acks_first_only (sample_orders 3) = 1%nat /\
  List.length (sample_orders 3) = 3%nat /\
  produce_messages acks_first_only (sample_orders 3)
  = (tt, [OkProduced 1]) /\
  status (main counter_ambient 20 shortfall_world 0) = Exit 0 /\
  effects (main counter_ambient 20 shortfall_world 0)
  = [EffProduce 3; EffBackup; EffDeleteTopic; EffCreateTopic; EffRestore;
     EffConsume; EffCompare].
Proof. repeat split. Qed.

(** C5: the claim does not hold of [main].  When the topic deletion
    (or the topic creation) exits with status 1,
    [run_kafka_cli_command] returns [False], [main] drops that value,
    and restore, drain and compare all run; the process exits with
    status 0. *)
Theorem topic_command_failure_ignored :
  fst (run_kafka_cli_command (delete_run delete_fails_world) "Topic deleted")
  = false /\
  effects (main counter_ambient 20 delete_fails_world 0)
  = [EffProduce 2; EffBackup; EffDeleteTopic; EffCreateTopic; EffRestore;
     EffConsume; EffCompare] /\
  status (main counter_ambient 20 delete_fails_world 0) = Exit 0 /\
  fst (run_kafka_cli_command (create_run create_fails_world)
         "Topic recreated") = false /\
  effects (main counter_ambient 20 create_fails_world 0)
  = [EffProduce 2; EffBackup; EffDeleteTopic; EffCreateTopic; EffRestore;
     EffConsume; EffCompare] /\
  status (main counter_ambient 20 create_fails_world 0) = Exit 0.
Proof. repeat split. Qed.

(** Where [main] does check a sub-command: a backup that exits with
    status 1 ends the run with status 1 before the topic is touched. *)
Example backup_failure_aborts :
  main counter_ambient 20
       (mkWorld 2 (fun _ => Acked) exit_1 exit_ok exit_ok exit_ok
                silent_consumer 0) 0
  = mkRun (Exit 1) [EffProduce 2; EffBackup]
          [OutStep 1; OkGenerated 2; OutStep 2; OkProduced 2; OutStep 3;
           ErrCommandFailed "Backup completed"; OutText "error";
           ErrBackupFailed].
Proof. reflexivity. Qed.

(** ** The report summary *)

Lemma bind_Returned {A B : Type} (x : outcome A) (f : A -> outcome B) b :
  bind x f = Returned b -> exists a, x = Returned a /\ f a = Returned b.
Proof. destruct x as [a|e]; simpl; [eauto | discriminate]. Qed.

Lemma dict_get_lookup d key default v :
  lookup d key = Some v -> dict_get d key default = v.
Proof.
  induction d as [|[k x] d IH]; simpl; [discriminate|].
  destruct (String.eqb k key); [congruence | exact IH].
Qed.

Lemma get_field x key default v :
  field x key = Some v -> get x key default = Returned v.
Proof.
  destruct x; simpl; try discriminate.
  intros H. now rewrite (dict_get_lookup _ _ _ _ H).
Qed.

Lemma field_truthy x key v : field x key = Some v -> truthy x = true.
Proof.
  destruct x as [| | | | |d]; simpl; try discriminate.
  destruct d; [discriminate | reflexivity].
Qed.

Lemma check_target_higher v t : check_target v t true = PASS <-> (t <= v)%Q.
Proof.
  unfold check_target. rewrite <- Qle_bool_iff.
  destruct (Qle_bool t v); split; intros H; try reflexivity;
    discriminate.
Qed.

Lemma check_target_lower v t : check_target v t false = PASS <-> (v <= t)%Q.
Proof.
  unfold check_target. rewrite <- Qle_bool_iff.
  destruct (Qle_bool v t); split; intros H; try reflexivity;
    discriminate.
Qed.

Lemma throughput_row_inv x rows :
  throughput_row x = Returned rows ->
  rows = [] \/ exists v, rows = [throughput_summary v].
Proof.
  unfold throughput_row. destruct (truthy x).
  - intros H. apply bind_Returned in H as [j [_ H]].
    apply bind_Returned in H as [v [_ H]].
    injection H as <-. right. now exists v.
  - intros H. injection H as <-. now left.
Qed.

Lemma compression_row_inv x rows :
  compression_row x = Returned rows ->
  rows = [] \/ exists v, rows = [compression_summary v].
Proof.
  unfold compression_row. destruct (truthy x).
  - intros H. apply bind_Returned in H as [z [_ H]].
    apply bind_Returned in H as [j [_ H]].
    apply bind_Returned in H as [v [_ H]].
    injection H as <-. right. now exists v.
  - intros H. injection H as <-. now left.
Qed.

Lemma latency_row_inv x rows :
  latency_row x = Returned rows ->
  rows = [] \/ exists v, rows = [latency_summary v].
Proof.
  unfold latency_row. destruct (truthy x).
  - intros H. apply bind_Returned in H as [j [_ H]].
    apply bind_Returned in H as [v [_ H]].
    injection H as <-. right. now exists v.
  - intros H. injection H as <-. now left.
Qed.

Lemma throughput_row_field x v :
  field x "backup_mbps" = Some (JNum v) ->
  throughput_row x = Returned [throughput_summary v].
Proof.
  intros H. unfold throughput_row.
  now rewrite (field_truthy _ _ _ H), (get_field _ _ (JNum 0) _ H).
Qed.

Lemma compression_row_field x zstd v :
  field x "zstd" = Some zstd -> field zstd "ratio" = Some (JNum v) ->
  compression_row x = Returned [compression_summary v].
Proof.
  intros H1 H2. unfold compression_row.
  rewrite (field_truthy _ _ _ H1), (get_field _ _ (JObj []) _ H1).
  simpl. now rewrite (get_field _ _ (JNum 0) _ H2).
Qed.

Lemma latency_row_field x v :
  field x "checkpoint_p99_ms" = Some (JNum v) ->
  latency_row x = Returned [latency_summary v].
Proof.
  intros H. unfold latency_row.
  now rewrite (field_truthy _ _ _ H), (get_field _ _ (JNum 0) _ H).
Qed.

(** The shape of a summary that was produced. *)
Lemma summary_rows_inv results rows :
  summary_rows results = Returned rows ->
  exists scenarios throughput compression latency r1 r2 r3,
    get results "scenarios" (JObj []) = Returned scenarios /\
    get scenarios "throughput" (JObj []) = Returned throughput /\
    throughput_row throughput = Returned r1 /\
    get scenarios "compression" (JObj []) = Returned compression /\
    compression_row compression = Returned r2 /\
    get scenarios "latency" (JObj []) = Returned latency /\
    latency_row latency = Returned r3 /\
    rows = r1 ++ r2 ++ r3.
Proof.
  unfold summary_rows. intros H.
  apply bind_Returned in H as [scenarios [E0 H]].
  apply bind_Returned in H as [throughput [E1 H]].
  apply bind_Returned in H as [r1 [E2 H]].
  apply bind_Returned in H as [compression [E3 H]].
  apply bind_Returned in H as [r2 [E4 H]].
  apply bind_Returned in H as [latency [E5 H]].
  apply bind_Returned in H as [r3 [E6 H]].
  injection H as <-.
  exists scenarios, throughput, compression, latency, r1, r2, r3.
  repeat split; assumption.
Qed.

Lemma throughput_summary_status v :
  row_status (throughput_summary v) = PASS
  <-> meets_threshold (throughput_summary v).
Proof.
  unfold meets_threshold. cbn [metric result row_status throughput_summary].
  rewrite check_target_higher. split.
  - intros H. left. now split.
  - intros [[_ H]|[[H _]|[H _]]]; [exact H | discriminate | discriminate].
Qed.

Lemma compression_summary_status v :
  row_status (compression_summary v) = PASS
  <-> meets_threshold (compression_summary v).
Proof.
  unfold meets_threshold. cbn [metric result row_status compression_summary].
  rewrite check_target_higher. split.
  - intros H. right. left. now split.
  - intros [[H _]|[[_ H]|[H _]]]; [discriminate | exact H | discriminate].
Qed.

Lemma latency_summary_status v :
  row_status (latency_summary v) = PASS
  <-> meets_threshold (latency_summary v).
Proof.
  unfold meets_threshold. cbn [metric result row_status latency_summary].
  rewrite check_target_lower. split.
  - intros H. right. right. now split.
  - intros [[H _]|[[H _]|[_ H]]]; [discriminate | discriminate | exact H].
Qed.

(** C9: in every summary the formatter produces, a row is marked PASS
    exactly when its metric meets its fixed threshold: the row of
    [throughput.backup_mbps] iff the value is at least 100, the row of
    [compression.zstd.ratio] iff it is at least 3, the row of
    [latency.checkpoint_p99_ms] iff it is at most 100; each of these
    numbers, when present in the document, has its row.  For
    [backup_mbps = 120], [ratio = 4.2], [checkpoint_p99_ms = 80] the
    three rows are all PASS. *)
Theorem summary_status_thresholds (results : json)
  (rows : list summary_row) :
  summary_rows results = Returned rows ->
  (forall r, In r rows -> (row_status r = PASS <-> meets_threshold r)) /\
  (forall scenarios throughput v,
      field results "scenarios" = Some scenarios ->
      field scenarios "throughput" = Some throughput ->
      field throughput "backup_mbps" = Some (JNum v) ->
      In (throughput_summary v) rows /\
      (row_status (throughput_summary v) = PASS <-> (100 <= v)%Q)) /\
  (forall scenarios compression zstd v,
      field results "scenarios" = Some scenarios ->
      field scenarios "compression" = Some compression ->
      field compression "zstd" = Some zstd ->
      field zstd "ratio" = Some (JNum v) ->
      In (compression_summary v) rows /\
      (row_status (compression_summary v) = PASS <-> (3 <= v)%Q)) /\
  (forall scenarios latency v,
      field results "scenarios" = Some scenarios ->
      field scenarios "latency" = Some latency ->
      field latency "checkpoint_p99_ms" = Some (JNum v) ->
      In (latency_summary v) rows /\
      (row_status (latency_summary v) = PASS <-> (v <= 100)%Q)) /\
  summary_rows scenario5
  = Returned [mkRow "Throughput (Backup)" 120 "100 MB/s" PASS;
              mkRow "Compression Ratio" (42 # 10) "3-5x" PASS;
              mkRow "Checkpoint p99" 80 "<100ms" PASS].
Proof.
  intros H.
  destruct (summary_rows_inv _ _ H)
    as (sc & tp & cp & lt & r1 & r2 & r3
        & E0 & E1 & E2 & E3 & E4 & E5 & E6 & ->).
  split; [|split; [|split; [|split]]].
  - intros r Hr. rewrite !in_app_iff in Hr.
    destruct Hr as [Hr|[Hr|Hr]].
    + destruct (throughput_row_inv _ _ E2) as [->|[v ->]];
        [contradiction|].
      destruct Hr as [<-|[]]. apply throughput_summary_status.
    + destruct (compression_row_inv _ _ E4) as [->|[v ->]];
        [contradiction|].
      destruct Hr as [<-|[]]. apply compression_summary_status.
    + destruct (latency_row_inv _ _ E6) as [->|[v ->]];
        [contradiction|].
      destruct Hr as [<-|[]]. apply latency_summary_status.
  - intros scenarios throughput v F0 F1 F2.
    rewrite (get_field _ _ (JObj []) _ F0) in E0. injection E0 as <-.
    rewrite (get_field _ _ (JObj []) _ F1) in E1. injection E1 as <-.
    rewrite (throughput_row_field _ _ F2) in E2. injection E2 as <-.
    split; [now left | apply check_target_higher].
  - intros scenarios compression zstd v F0 F1 F2 F3.
    rewrite (get_field _ _ (JObj []) _ F0) in E0. injection E0 as <-.
    rewrite (get_field _ _ (JObj []) _ F1) in E3. injection E3 as <-.
    rewrite (compression_row_field _ _ _ F2 F3) in E4. injection E4 as <-.
    split; [|apply check_target_higher].
    rewrite !in_app_iff. right. left. now left.
  - intros scenarios latency v F0 F1 F2.
    rewrite (get_field _ _ (JObj []) _ F0) in E0. injection E0 as <-.
    rewrite (get_field _ _ (JObj []) _ F1) in E5. injection E5 as <-.
    rewrite (latency_row_field _ _ F2) in E6. injection E6 as <-.
    split; [|apply check_target_lower].
    rewrite !in_app_iff. right. right. now left.
  - reflexivity.
Qed.

Lemma summary_status_thresholds_witness :
  In (throughput_summary 120)
     [throughput_summary 120; compression_summary (42 # 10);
      latency_summary 80] /\
  row_status (throughput_summary 120) = PASS /\
  row_status (compression_summary (42 # 10)) = PASS /\
  row_status (latency_summary 80) = PASS.
Proof.
  destruct (summary_status_thresholds scenario5
              [throughput_summary 120; compression_summary (42 # 10);
               latency_summary 80] eq_refl)
    as (Hall & Ht & _).
  split.
  - apply (Ht _ _ 120%Q eq_refl eq_refl eq_refl).
  - repeat split.
Defined.

Example summary_failing :
  summary_rows
    (JObj [("scenarios",
            JObj [("throughput", JObj [("backup_mbps", JNum (999 # 10))]);
                  ("compression", JObj []);
                  ("latency", JObj [("checkpoint_p99_ms", JNum 101)])])])
  = Returned [mkRow "Throughput (Backup)" (999 # 10) "100 MB/s" FAIL;
              mkRow "Checkpoint p99" 101 "<100ms" FAIL].
Proof. reflexivity. Qed.

(** ** More on the comparator *)

Lemma insert_by_key_map (f : order -> order) x l :
  (forall o, order_id (f o) = order_id o) ->
  insert_by_key (f x) (map f l) = map f (insert_by_key x l).
Proof.
  intros Hf. induction l as [|y l IH]; simpl; [reflexivity|].
  rewrite !Hf. destruct (String.leb (order_id x) (order_id y)); simpl;
    [reflexivity | now rewrite IH].
Qed.

Lemma sorted_by_order_id_map (f : order -> order) l :
  (forall o, order_id (f o) = order_id o) ->
  sorted_by_order_id (map f l) = map f (sorted_by_order_id l).
Proof.
  intros Hf. induction l as [|x l IH]; simpl; [reflexivity|].
  now rewrite IH, insert_by_key_map.
Qed.

Lemma alter_amount_key k a o : order_id (alter_amount k a o) = order_id o.
Proof. unfold alter_amount. now destruct (String.eqb (order_id o) k). Qed.

Lemma compare_loop_alter_absent k a l :
  forall m,
    ~ In k (map order_id l) ->
    compare_loop m (combine l (map (alter_amount k a) l)) = (m, []).
Proof.
  induction l as [|x l IH]; intros m Hnin; simpl; [reflexivity|].
  simpl in Hnin.
  assert (Hx : alter_amount k a x = x).
  { unfold alter_amount. destruct (String.eqb_spec (order_id x) k);
      [exfalso; auto | reflexivity]. }
  rewrite Hx, compare_pair_same, IH by tauto. reflexivity.
Qed.

Lemma compare_loop_alter_present k a l :
  forall m,
    NoDup (map order_id l) -> In k (map order_id l) ->
    (forall o, In o l -> order_id o = k -> amount o <> a) ->
    compare_loop m (combine l (map (alter_amount k a) l))
    = (S m, [OutAmountMismatch k]).
Proof.
  induction l as [|x l IH]; intros m ND Hin Hne; simpl in *; [contradiction|].
  inversion ND as [|? ? Hnin ND']; subst.
  destruct (String.eqb_spec (order_id x) k) as [E|E].
  - assert (Hx : compare_pair m x (alter_amount k a x)
                 = (S m, [OutAmountMismatch k])).
    { unfold compare_pair, alter_amount.
      rewrite (proj2 (String.eqb_eq _ _) E). cbn [order_id amount with_amount].
      rewrite String.eqb_refl. cbn [negb].
      destruct (Z.eqb_spec (amount x) a) as [Ea|Ea];
        [exfalso; apply (Hne x); auto | now rewrite E]. }
    rewrite Hx, compare_loop_alter_absent by (rewrite <- E; exact Hnin).
    reflexivity.
  - assert (Hx : alter_amount k a x = x).
    { unfold alter_amount. now rewrite (proj2 (String.eqb_neq _ _) E). }
    rewrite Hx, compare_pair_same, IH; auto.
    destruct Hin as [Hin|Hin]; [contradiction | exact Hin].
Qed.

(** One altered amount is found, and nothing else is reported: when the
    keys of [expected] are distinct and [actual] is [expected] in any
    order with the amount of the order [k] changed, the comparator
    prints one amount-mismatch line, for [k], counts one mismatch and
    returns [False]. *)
Theorem compare_one_amount_changed (expected actual : list order)
  (k : string) (a : Z) :
  NoDup (map order_id expected) ->
  In k (map order_id expected) ->
  (forall o, In o expected -> order_id o = k -> amount o <> a) ->
  Permutation (map (alter_amount k a) expected) actual ->
  compare_messages expected actual
  = (false, [OutAmountMismatch k; ErrMismatchesFound 1]).
Proof.
  intros ND Hin Hne P.
  assert (Hkeys : map order_id (map (alter_amount k a) expected)
                  = map order_id expected).
  { rewrite map_map. apply map_ext, alter_amount_key. }
  assert (Hs : sorted_by_order_id actual
               = map (alter_amount k a) (sorted_by_order_id expected)).
  { rewrite <- (sorted_by_order_id_permutation _ _
                  ltac:(rewrite Hkeys; exact ND) P).
    apply sorted_by_order_id_map, alter_amount_key. }
  assert (HP : Permutation (map order_id expected)
                 (map order_id (sorted_by_order_id expected)))
    by apply Permutation_map, sorted_by_order_id_perm.
  unfold compare_messages.
  rewrite <- (Permutation_length P), length_map, Nat.eqb_refl. cbn [negb].
  rewrite Hs, compare_loop_alter_present.
  - reflexivity.
  - eapply Permutation_NoDup; eauto.
  - eapply Permutation_in; eauto.
  - intros o Ho. apply Hne.
    eapply Permutation_in; [apply Permutation_sym, sorted_by_order_id_perm|].
    exact Ho.
Qed.

Lemma compare_one_amount_changed_witness :
  compare_messages three_orders
    (map (alter_amount "PY-ORD-0001" 1001) three_orders)
  = (false, [OutAmountMismatch "PY-ORD-0001"; ErrMismatchesFound 1]).
Proof.
  apply (compare_one_amount_changed three_orders _ "PY-ORD-0001" 1001).
  - repeat constructor; simpl; intuition discriminate.
  - simpl. tauto.
  - intros o [<-|[<-|[<-|[]]]]; simpl; intros H; try discriminate H.
    intros Ha. discriminate Ha.
  - apply Permutation_refl.
Defined.

Lemma insert_by_key_same_checked x x' l l' :
  same_checked x x' -> Forall2 same_checked l l' ->
  Forall2 same_checked (insert_by_key x l) (insert_by_key x' l').
Proof.
  intros Hx Hl. induction Hl as [|y y' l l' Hy Hl IH]; simpl.
  - constructor; [exact Hx | constructor].
  - rewrite <- (proj1 Hx), <- (proj1 Hy).
    destruct (String.leb (order_id x) (order_id y)).
    + constructor; [exact Hx|]. constructor; assumption.
    + constructor; [exact Hy | exact IH].
Qed.

Lemma sorted_by_order_id_same_checked l l' :
  Forall2 same_checked l l' ->
  Forall2 same_checked (sorted_by_order_id l) (sorted_by_order_id l').
Proof.
  induction 1; simpl; [constructor|].
  now apply insert_by_key_same_checked.
Qed.

Lemma compare_loop_same_checked l1 l1' :
  Forall2 same_checked l1 l1' ->
  forall l2 l2' m,
    Forall2 same_checked l2 l2' ->
    compare_loop m (combine l1 l2) = compare_loop m (combine l1' l2').
Proof.
  induction 1 as [|x x' l1 l1' [Hk Ha] H1 IH]; intros l2 l2' m H2;
    [reflexivity|].
  destruct H2 as [|y y' l2 l2' [Hk' Ha'] H2]; [reflexivity|]. simpl.
  unfold compare_pair. rewrite <- Hk, <- Hk', <- Ha, <- Ha'.
  destruct (negb (order_id x =? order_id y)%string);
    [|destruct (negb (amount x =? amount y))];
    rewrite (IH l2 l2' _ H2); reflexivity.
Qed.

(** Only [order_id] and [amount] are compared: replacing the orders on
    either side by orders with the same keys and amounts, position by
    position, changes neither the verdict nor a printed line. *)
Theorem compare_reads_key_and_amount_only
  (expected expected' actual actual' : list order) :
  Forall2 same_checked expected expected' ->
  Forall2 same_checked actual actual' ->
  compare_messages expected actual = compare_messages expected' actual'.
Proof.
  intros He Ha. unfold compare_messages.
  rewrite <- (Forall2_length He), <- (Forall2_length Ha).
  destruct (negb (List.length expected =? List.length actual)%nat);
    [reflexivity|].
  now rewrite (compare_loop_same_checked _ _
                 (sorted_by_order_id_same_checked _ _ He) _ _ 0%nat
                 (sorted_by_order_id_same_checked _ _ Ha)).
Qed.

Lemma compare_reads_key_and_amount_only_witness :
  compare_messages three_orders three_orders_shuffled
  = compare_messages (map blank_unchecked three_orders)
                     (map blank_unchecked three_orders_shuffled).
Proof.
  apply (compare_reads_key_and_amount_only
           three_orders (map blank_unchecked three_orders)
           three_orders_shuffled (map blank_unchecked three_orders_shuffled));
    repeat constructor.
Defined.

(** The loop counts one mismatch per line it prints, and prints at most
    one line per pair. *)
Lemma compare_loop_count pairs :
  forall m,
    fst (compare_loop m pairs)
    = (m + List.length (snd (compare_loop m pairs)))%nat /\
    (List.length (snd (compare_loop m pairs)) <= List.length pairs)%nat /\
    mismatch_lines (snd (compare_loop m pairs)) = snd (compare_loop m pairs).
Proof.
  induction pairs as [|[x y] pairs IH]; intros m; simpl.
  - repeat split; lia.
  - unfold compare_pair.
    destruct (negb (order_id x =? order_id y)%string);
      [|destruct (negb (amount x =? amount y))];
      match goal with
      | |- context [compare_loop ?n pairs] =>
          destruct (IH n) as [H1 [H2 H3]];
          destruct (compare_loop n pairs) as [m' out'] eqn:E
      end; cbn [fst snd] in *; unfold mismatch_lines in *;
      cbn [List.length app filter is_record_mismatch];
      rewrite ?H3; repeat split; lia.
Qed.

(** A loop that counts no mismatch saw pairs that agree on key and
    amount. *)
Lemma compare_loop_zero l1 :
  forall l2 m,
    List.length l1 = List.length l2 ->
    fst (compare_loop m (combine l1 l2)) = m ->
    map key_amount l1 = map key_amount l2.
Proof.
  induction l1 as [|x l1 IH]; intros [|y l2] m Hlen H;
    try discriminate Hlen; [reflexivity|].
  simpl in *. unfold compare_pair in H.
  destruct (String.eqb_spec (order_id x) (order_id y)) as [Ek|Ek];
    cbn [negb] in H.
  - destruct (Z.eqb_spec (amount x) (amount y)) as [Ea|Ea]; cbn [negb] in H.
    + destruct (compare_loop m (combine l1 l2)) as [m' out'] eqn:E.
      cbn [fst] in H. subst m'.
      unfold key_amount at 1 3. rewrite Ek, Ea. f_equal.
      apply (IH l2 m); [lia | now rewrite E].
    + pose proof (compare_loop_count (combine l1 l2) (S m)) as [H1 _].
      destruct (compare_loop (S m) (combine l1 l2)) as [m' out'].
      cbn [fst snd] in *. lia.
  - pose proof (compare_loop_count (combine l1 l2) (S m)) as [H1 _].
    destruct (compare_loop (S m) (combine l1 l2)) as [m' out'].
    cbn [fst snd] in *. lia.
Qed.

Lemma compare_true_key_amounts (expected actual : list order) :
  fst (compare_messages expected actual) = true ->
  List.length expected = List.length actual /\
  Permutation (map key_amount expected) (map key_amount actual).
Proof.
  unfold compare_messages.
  destruct (Nat.eqb_spec (List.length expected) (List.length actual))
    as [Hlen|Hlen]; cbn [negb]; [|discriminate].
  intros H. split; [exact Hlen|].
  destruct (compare_loop 0 (combine (sorted_by_order_id expected)
                                    (sorted_by_order_id actual)))
    as [m out] eqn:E.
  destruct (Nat.eqb_spec m 0) as [Hm|Hm]; [|discriminate H]. subst m.
  assert (Hmap : map key_amount (sorted_by_order_id expected)
                 = map key_amount (sorted_by_order_id actual)).
  { apply (compare_loop_zero _ _ 0%nat).
    - now rewrite !sorted_by_order_id_length.
    - now rewrite E. }
  rewrite (Permutation_map key_amount (sorted_by_order_id_perm expected)).
  rewrite (Permutation_map key_amount (sorted_by_order_id_perm actual)).
  now rewrite Hmap.
Qed.

(** No false positive: when [compare_messages] returns [True], the two
    lists have the same length and carry the same (key, amount) pairs,
    each as often in one list as in the other. *)
Theorem compare_true_sound (expected actual : list order) :
  fst (compare_messages expected actual) = true ->
  List.length expected = List.length actual /\
  Permutation (map key_amount expected) (map key_amount actual).
Proof. apply compare_true_key_amounts. Qed.

Lemma compare_true_sound_witness :
  List.length three_orders = List.length three_orders_shuffled /\
  Permutation (map key_amount three_orders)
              (map key_amount three_orders_shuffled).
Proof.
  apply (compare_true_sound three_orders three_orders_shuffled).
  reflexivity.
Defined.

Lemma compare_pair_disagree m x y :
  (disagree (x, y) = true /\
   compare_pair m x y = (S m, [mismatch_line (x, y)])) \/
  (disagree (x, y) = false /\ compare_pair m x y = (m, [])).
Proof.
  unfold compare_pair, disagree, mismatch_line. cbn [fst snd].
  destruct (String.eqb (order_id x) (order_id y)); cbn [negb orb];
    [|now left].
  destruct (Z.eqb (amount x) (amount y)); cbn [negb]; [now right | now left].
Qed.

Lemma compare_loop_filter pairs :
  forall m,
    compare_loop m pairs
    = ((m + List.length (filter disagree pairs))%nat,
       map mismatch_line (filter disagree pairs)).
Proof.
  induction pairs as [|[x y] pairs IH]; intros m.
  - simpl. now rewrite Nat.add_0_r.
  - cbn [compare_loop filter].
    destruct (compare_pair_disagree m x y) as [[Hd Hp]|[Hd Hp]];
      rewrite Hd, Hp, IH; cbn [List.length map app]; f_equal; lia.
Qed.

(** Every mismatch is reported, none twice: for lists of equal length
    the loop does not stop at the first mismatch.  The pairs of the two
    sorted lists that differ in key or in amount each get their line,
    in order; the counter is their number; the verdict is [True]
    exactly when there is none; and the last line carries the count. *)
Theorem compare_counts_every_mismatch (expected actual : list order) :
  List.length expected = List.length actual ->
  let bad := filter disagree (sorted_pairs expected actual) in
  compare_messages expected actual
  = (Nat.eqb (List.length bad) 0,
     map mismatch_line bad
     ++ [if Nat.eqb (List.length bad) 0
         then OkAllMatch (List.length expected)
         else ErrMismatchesFound (List.length bad)]) /\
  count_mismatches expected actual = List.length bad.
Proof.
  intros Hlen bad. subst bad.
  unfold compare_messages, count_mismatches, sorted_pairs.
  rewrite Hlen, Nat.eqb_refl. cbn [negb].
  rewrite compare_loop_filter. cbn [fst Nat.add].
  split; [|reflexivity].
  now destruct (Nat.eqb _ 0).
Qed.

Lemma compare_counts_every_mismatch_witness :
  compare_messages dup_expected dup_actual
  = (false,
     [OutAmountMismatch "PY-ORD-0001"; OutAmountMismatch "PY-ORD-0001";
      ErrMismatchesFound 2]) /\
  count_mismatches dup_expected dup_actual = 2%nat.
Proof.
  apply (compare_counts_every_mismatch dup_expected dup_actual).
  reflexivity.
Defined.

(** ** More on the producer *)

Lemma flush_count broker messages :
  forall delivered,
    flush broker delivered messages
    = ((delivered
        + List.length (filter (fun m => is_acked (broker m)) messages))%nat,
       repeat ErrDeliveryFailed
         (List.length (filter (fun m => is_failed (broker m)) messages))).
Proof.
  induction messages as [|msg messages IH]; intros delivered; simpl.
  - now rewrite Nat.add_0_r.
  - destruct (broker msg); simpl; rewrite IH; simpl; f_equal; lia.
Qed.

(** [produce_messages] reports the number of acknowledged records, which
    is at most the number published and equals it exactly when every
    record was acknowledged; it prints one failure line per record whose
    delivery failed, and says nothing about records still
    unacknowledged. *)
Theorem produce_reports_acknowledged (broker : order -> delivery)
  (messages : list order) :
  delivered_count broker messages
  = List.length (filter (fun m => is_acked (broker m)) messages) /\
  (delivered_count broker messages <= List.length messages)%nat /\
  (delivered_count broker messages = List.length messages <->
   forall m, In m messages -> broker m = Acked) /\
  produce_messages broker messages
  = (tt, repeat ErrDeliveryFailed
           (List.length (filter (fun m => is_failed (broker m)) messages))
         ++ [OkProduced (delivered_count broker messages)]).
Proof.
  unfold delivered_count, produce_messages. rewrite flush_count.
  cbn [fst Nat.add]. repeat split.
  - apply filter_length_le.
  - intros H m Hm.
    assert (Hall : forallb (fun m => is_acked (broker m)) messages = true).
    { apply filter_length_forallb. exact H. }
    rewrite forallb_forall in Hall. specialize (Hall m Hm).
    now destruct (broker m).
  - intros H. f_equal. apply forallb_filter_id.
    apply forallb_forall. intros m Hm. now rewrite (H m Hm).
Qed.

Example produce_shortfall_count :
  produce_messages acks_first_only (sample_orders 3) = (tt, [OkProduced 1]).
Proof. reflexivity. Qed.

(** ** More on the drain loop *)

Lemma decoded_orders_S c n :
  decoded_orders c (S n)
  = decoded_orders c n ++ match polled (c n) with
                          | PollMessage (JsonOrder o) => [o]
                          | _ => []
                          end.
Proof.
  unfold decoded_orders. rewrite seq_S, flat_map_app. simpl.
  now rewrite app_nil_r.
Qed.

(** The collected messages are the orders polled so far. *)
Lemma consume_loop_collects c start timeout fuel :
  forall st res st',
    messages st = decoded_orders c (polls_done st) ->
    consume_loop fuel c start timeout st = Some (res, st') ->
    messages st' = decoded_orders c (polls_done st') /\
    (forall ms, res = Returned ms -> ms = messages st').
Proof.
  induction fuel as [|fuel IH]; intros st res st' Hinv H; [discriminate|].
  simpl in H.
  destruct (empty_polls st <? max_empty_polls).
  - destruct (clock st - start >? timeout).
    + injection H as <- <-. split; [exact Hinv|].
      intros ms E. now injection E as <-.
    + set (ev := c (polls_done st)) in *.
      assert (Hstep :
                forall st1,
                  snd (handle_poll (polled ev) (after_poll ev st)) = st1 ->
                  messages st1 = decoded_orders c (polls_done st1)).
      { intros st1 <-.
        destruct (polled ev) as [|[|code]|[o| |]] eqn:Ep;
          cbn [handle_poll snd messages polls_done set_empty_polls print
               append_message after_poll];
          rewrite decoded_orders_S; fold ev; rewrite Ep, Hinv;
          try (now rewrite app_nil_r); reflexivity. }
      destruct (handle_poll (polled ev) (after_poll ev st))
        as [[u|e] st1] eqn:Eh.
      * apply (IH st1); [apply Hstep; reflexivity | exact H].
      * injection H as <- <-. split; [apply Hstep; reflexivity|].
        intros ms E. discriminate E.
  - injection H as <- <-. split; [exact Hinv|].
    intros ms E. now injection E as <-.
Qed.

(** The drain returns what it polled, no more and no less: whenever
    [consume_messages] ends, the messages collected are the orders that
    decoded among the polls made, in the order they were polled; records
    that are not JSON, errors and empty polls contribute nothing. *)
Theorem drain_returns_polled_orders (fuel : nat) (c : consumer)
  (now timeout : Z) (res : outcome (list order)) (st' : drain_state) :
  consume_messages fuel c now timeout = Some (res, st') ->
  messages st' = decoded_orders c (polls_done st') /\
  (forall ms, res = Returned ms -> ms = decoded_orders c (polls_done st')).
Proof.
  intros H. unfold consume_messages in H.
  destruct (consume_loop_collects c now timeout fuel
              (mkDrain [] 0 now 0%nat []) res st' eq_refl H)
    as [H1 H2].
  split; [exact H1|]. intros ms E. rewrite <- H1. now apply H2.
Qed.

Lemma drain_returns_polled_orders_witness :
  messages (mkDrain (sample_orders 2) 10 10010 12 [])
  = decoded_orders (replay_consumer (sample_orders 2)) 12 /\
  (forall ms, Returned (sample_orders 2) = Returned ms ->
              ms = decoded_orders (replay_consumer (sample_orders 2)) 12).
Proof.
  apply (drain_returns_polled_orders 20 (replay_consumer (sample_orders 2))
           0 default_timeout (Returned (sample_orders 2))
           (mkDrain (sample_orders 2) 10 10010 12 [])).
  reflexivity.
Defined.

Lemma handle_poll_polls msg st :
  polls_done (snd (handle_poll msg st)) = polls_done st.
Proof. destruct msg as [|[|code]|[o| |]]; reflexivity. Qed.

Lemma firstn_snoc_nth_error {A : Type} (l : list A) :
  forall n x, nth_error l n = Some x -> firstn (S n) l = firstn n l ++ [x].
Proof.
  induction l as [|y l IH]; intros [|n] x H; try discriminate H.
  - injection H as <-. reflexivity.
  - simpl in *. now rewrite <- (IH n x H).
Qed.

(** The loop only asks the consumer for polls not yet made. *)
Lemma consume_loop_ext c c' start timeout fuel :
  forall st,
    (forall i, (polls_done st <= i)%nat -> c i = c' i) ->
    consume_loop fuel c start timeout st
    = consume_loop fuel c' start timeout st.
Proof.
  induction fuel as [|fuel IH]; intros st Hext; [reflexivity|]. simpl.
  rewrite <- (Hext (polls_done st) (le_n _)).
  destruct (empty_polls st <? max_empty_polls); [|reflexivity].
  destruct (clock st - start >? timeout); [reflexivity|].
  set (ev := c (polls_done st)).
  pose proof (handle_poll_polls (polled ev) (after_poll ev st)) as Hp.
  destruct (handle_poll (polled ev) (after_poll ev st)) as [[u|e] st1];
    [|reflexivity].
  apply IH. intros i Hi. apply Hext. cbn [snd after_poll polls_done] in Hp.
  lia.
Qed.

(** Only the time elapsed since [start_time] matters, compared with
    [timeout]. *)
Lemma consume_loop_shift c start timeout d fuel :
  forall st,
    consume_loop fuel c (start + d) (timeout - d) st
    = consume_loop fuel c start timeout st.
Proof.
  induction fuel as [|fuel IH]; intros st; [reflexivity|]. simpl.
  replace (clock st - (start + d) >? timeout - d)
    with (clock st - start >? timeout)
    by (rewrite !Z.gtb_ltb;
        destruct (Z.ltb_spec timeout (clock st - start));
        destruct (Z.ltb_spec (timeout - d) (clock st - (start + d)));
        lia || reflexivity).
  destruct (empty_polls st <? max_empty_polls); [|reflexivity].
  destruct (clock st - start >? timeout); [reflexivity|].
  destruct (handle_poll (polled (c (polls_done st)))
              (after_poll (c (polls_done st)) st)) as [[u|e] st1];
    [apply IH | reflexivity].
Qed.

(** The idle phase, for a consumer that is idle from the current poll
    on. *)
Lemma consume_loop_idle_tail c start timeout st fuel :
  timely c ->
  (forall i, (polls_done st <= i)%nat -> is_idle (polled (c i)) = true) ->
  empty_polls st = 0 ->
  clock st - start + max_empty_polls * poll_interval <= timeout ->
  (10 < fuel)%nat ->
  exists st',
    consume_loop fuel c start timeout st = Some (Returned (messages st), st')
    /\ clock st' - start
       <= clock st - start + max_empty_polls * poll_interval
    /\ polls_done st' = (polls_done st + 10)%nat
    /\ printed st' = printed st.
Proof.
  intros Hc Hidle He Hclk Hfuel.
  set (c' := fun i => if (i <? polls_done st)%nat
                      then mkPoll 1 PollNone else c i).
  assert (Hc' : timely c').
  { intros i. unfold c'. destruct (i <? polls_done st)%nat; [|apply Hc].
    unfold poll_interval. simpl. lia. }
  assert (Hidle' : forall i, is_idle (polled (c' i)) = true).
  { intros i. unfold c'. destruct (Nat.ltb_spec i (polls_done st));
      [reflexivity | now apply Hidle]. }
  rewrite (consume_loop_ext c c').
  2:{ intros i Hi. unfold c'.
      destruct (Nat.ltb_spec i (polls_done st)); [lia | reflexivity]. }
  rewrite <- (consume_loop_shift c' start timeout (clock st - start)).
  destruct (consume_loop_idle c' (start + (clock st - start))
              (timeout - (clock st - start)) Hc' Hidle'
              ltac:(lia) 10%nat st fuel)
    as [st' [H1 [H2 [H3 [H4 H5]]]]];
    try (rewrite ?He; unfold max_empty_polls; lia).
  exists st'. repeat split; try assumption. lia.
Qed.

(** The record phase followed by the idle phase. *)
Lemma consume_loop_delivers c start timeout restored per_record :
  timely c -> delivers c restored ->
  (forall i, (i < List.length restored)%nat ->
             blocked_ms (c i) <= per_record) ->
  Z.of_nat (List.length restored) * per_record
  + max_empty_polls * poll_interval <= timeout ->
  forall (k : nat) st fuel,
    (polls_done st + k = List.length restored)%nat ->
    messages st = firstn (polls_done st) restored ->
    empty_polls st = 0 ->
    clock st - start <= Z.of_nat (polls_done st) * per_record ->
    (k + 10 < fuel)%nat ->
    exists st',
      consume_loop fuel c start timeout st = Some (Returned restored, st')
      /\ polls_done st' = (List.length restored + 10)%nat
      /\ clock st' - start
         <= Z.of_nat (List.length restored) * per_record
            + max_empty_polls * poll_interval
      /\ printed st' = printed st.
Proof.
  intros Hc [Hrec Hidle] Hper Hto.
  induction k as [|k IH]; intros st fuel Hk Hms He Hclk Hfuel.
  - assert (Hn : polls_done st = List.length restored) by lia.
    rewrite Hn in Hclk.
    destruct (consume_loop_idle_tail c start timeout st fuel Hc)
      as [st' [H1 [H2 [H3 H4]]]]; try assumption.
    + intros i Hi. apply Hidle. lia.
    + lia.
    + exists st'. rewrite H1, Hms, Hn, firstn_all.
      repeat split; try assumption; lia.
  - destruct fuel as [|fuel]; [lia|]. simpl.
    rewrite He. cbn [Z.ltb Z.compare max_empty_polls].
    set (ev := c (polls_done st)).
    pose proof (Hc (polls_done st)) as Hd. fold ev in Hd.
    pose proof (Hper (polls_done st) ltac:(lia)) as Hp'. fold ev in Hp'.
    assert (Hmono : Z.of_nat (polls_done st) * per_record
                    + per_record
                    <= Z.of_nat (List.length restored) * per_record) by nia.
    replace (clock st - start >? timeout) with false
      by (symmetry; rewrite Z.gtb_ltb; apply Z.ltb_ge;
          unfold max_empty_polls, poll_interval in *; lia).
    destruct (nth_error restored (polls_done st)) as [o|] eqn:En;
      [|apply nth_error_None in En; lia].
    pose proof (Hrec _ _ En) as Hp. fold ev in Hp. rewrite Hp.
    cbn [handle_poll].
    destruct (IH (append_message o (set_empty_polls 0 (after_poll ev st)))
                 fuel) as [st' [H1 [H2 [H3 H4]]]];
      cbn [append_message set_empty_polls after_poll polls_done messages
           empty_polls clock printed]; try lia.
    + rewrite Hms. symmetry. now apply firstn_snoc_nth_error.
    + exists st'. repeat split; assumption.
Qed.

(** Nothing is lost when the time suffices: if the consumer hands out
    the orders of [restored] one per poll, each such poll taking at most
    [per_record] milliseconds, and is idle afterwards, and the timeout
    covers those polls and the ten idle ones, then [consume_messages]
    returns exactly [restored], in order, after ten more polls than
    there are records, and prints nothing. *)
Theorem drain_returns_all_delivered (c : consumer) (now timeout : Z)
  (restored : list order) (per_record : Z) :
  timely c -> delivers c restored ->
  (forall i, (i < List.length restored)%nat ->
             blocked_ms (c i) <= per_record) ->
  Z.of_nat (List.length restored) * per_record
  + max_empty_polls * poll_interval <= timeout ->
  exists st',
    (forall fuel, (List.length restored + 10 < fuel)%nat ->
                  consume_messages fuel c now timeout
                  = Some (Returned restored, st')) /\
    polls_done st' = (List.length restored + 10)%nat /\
    printed st' = [].
Proof.
  intros Hc Hd Hper Hto.
  destruct (consume_loop_delivers c now timeout restored per_record
              Hc Hd Hper Hto
              (List.length restored) (mkDrain [] 0 now 0%nat [])
              (S (List.length restored + 10)))
    as [st' [H1 [H2 [H3 H4]]]];
    cbn [polls_done messages empty_polls clock printed];
    try reflexivity; try lia.
  exists st'. repeat split; try assumption.
  intros fuel Hfuel. unfold consume_messages.
  eapply consume_loop_more_fuel; [exact H1 | lia].
Qed.

Lemma replay_consumer_timely restored : timely (replay_consumer restored).
Proof.
  intros n. unfold replay_consumer, poll_interval.
  destruct (nth_error restored n); simpl; lia.
Qed.

Lemma replay_consumer_delivers restored :
  delivers (replay_consumer restored) restored.
Proof.
  split.
  - intros i o H. unfold replay_consumer. now rewrite H.
  - intros i Hi. unfold replay_consumer.
    apply nth_error_None in Hi. now rewrite Hi.
Qed.

Lemma replay_consumer_quick restored i :
  (i < List.length restored)%nat ->
  blocked_ms (replay_consumer restored i) <= 5.
Proof.
  intros Hi. unfold replay_consumer.
  destruct (nth_error restored i) eqn:E; simpl; [lia|].
  apply nth_error_None in E. lia.
Qed.

Lemma drain_returns_all_delivered_witness :
  exists st',
    (forall fuel, (List.length (sample_orders 3) + 10 < fuel)%nat ->
                  consume_messages fuel (replay_consumer (sample_orders 3))
                    0 default_timeout
                  = Some (Returned (sample_orders 3), st')) /\
    polls_done st' = (List.length (sample_orders 3) + 10)%nat /\
    printed st' = [].
Proof.
  apply (drain_returns_all_delivered (replay_consumer (sample_orders 3))
           0 default_timeout (sample_orders 3) 5).
  - apply replay_consumer_timely.
  - apply replay_consumer_delivers.
  - apply replay_consumer_quick.
  - vm_compute. discriminate.
Defined.

(** ** The sub-process runners *)

Lemma substring_prefix_length m :
  forall s, (String.length (substring 0 m s) <= m)%nat.
Proof.
  induction m as [|m IH]; intros [|ch s]; simpl; try lia.
  specialize (IH s). lia.
Qed.

(** Both runners report success exactly when the process ran to its end
    with exit status 0: a non-zero status, a timeout and any other
    exception all give [False].  What [run_kafka_backup_command] echoes
    of the captured output is at most 500 characters. *)
Theorem runners_succeed_on_exit_zero_only (r : process_result)
  (description : string) :
  (fst (run_kafka_backup_command r description) = true <-> exited_zero r) /\
  (fst (run_kafka_cli_command r description) = true <-> exited_zero r) /\
  (forall s, In (OutText s) (snd (run_kafka_backup_command r description)) ->
             (String.length s <= 500)%nat).
Proof.
  unfold exited_zero.
  destruct r as [code out err| |]; simpl.
  - destruct (Z.eqb_spec code 0) as [->|Hc]; simpl.
    + repeat split; eauto.
      intros s [H|H]; [discriminate|].
      destruct (nonempty out); [|contradiction].
      destruct H as [H|[]]. injection H as <-.
      apply substring_prefix_length.
    + repeat split; try discriminate.
      * intros [o [e H]]. injection H as H _ _. contradiction.
      * intros [o [e H]]. injection H as H _ _. contradiction.
      * intros s [H|H]; [discriminate|].
        destruct (nonempty err); [|contradiction].
        destruct H as [H|[]]. injection H as <-.
        apply substring_prefix_length.
  - repeat split; try discriminate.
    + intros [o [e H]]. discriminate.
    + intros [o [e H]]. discriminate.
    + intros s [H|[]]. discriminate.
  - repeat split; try discriminate.
    + intros [o [e H]]. discriminate.
    + intros [o [e H]]. discriminate.
    + intros s [H|[]]. discriminate.
Qed.

(** ** More on the pipeline *)

Lemma backup_command_cases r description :
  (exited_zero r /\ fst (run_kafka_backup_command r description) = true) \/
  (~ exited_zero r /\ fst (run_kafka_backup_command r description) = false).
Proof.
  unfold exited_zero. destruct r as [code out err| |]; simpl.
  - destruct (Z.eqb_spec code 0) as [->|Hc]; [left; eauto | right].
    split; [|reflexivity]. intros [o [e H]]. injection H as H _ _.
    contradiction.
  - right. split; [|reflexivity]. intros [o [e H]]. discriminate.
  - right. split; [|reflexivity]. intros [o [e H]]. discriminate.
Qed.

Section PipelineFacts.
Context {G : Type} (amb : ambient G).

Lemma generate_length count g :
  exists messages g',
    generate_test_messages amb count g = (Returned messages, g') /\
    List.length messages = Z.to_nat count.
Proof.
  unfold generate_test_messages.
  pose proof (generate_loop_length amb (range 1 (count + 1)) g) as Hlen.
  rewrite range_length in Hlen.
  destruct (generate_loop amb (range 1 (count + 1)) g) as [messages g'].
  exists messages, g'. split; [reflexivity|]. cbn [fst] in Hlen.
  rewrite Hlen. f_equal. lia.
Qed.

(** The seven ways a run can go. *)
Lemma main_cases fuel w g :
  let n := Z.to_nat (arg_messages w) in
  let r := main amb fuel w g in
  let drain := consume_messages fuel (verify_consumer w) (consume_start w)
                 default_timeout in
  (arg_messages w <= 0 /\ status r = Uncaught IndexError /\ effects r = [])
  \/
  (0 < arg_messages w /\ ~ exited_zero (backup_run w) /\
   status r = Exit 1 /\ effects r = firstn 2 (pipeline n))
  \/
  (0 < arg_messages w /\ exited_zero (backup_run w) /\
   ~ exited_zero (restore_run w) /\
   status r = Exit 1 /\ effects r = firstn 5 (pipeline n))
  \/
  (0 < arg_messages w /\ exited_zero (backup_run w) /\
   exited_zero (restore_run w) /\
   ((drain = None /\ status r = Running /\ effects r = firstn 6 (pipeline n))
    \/
    (exists e st, drain = Some (Raised e, st) /\
                  status r = Uncaught e /\ effects r = firstn 6 (pipeline n))
    \/
    (exists original restored st,
        fst (generate_test_messages amb (arg_messages w) g)
        = Returned original /\
        drain = Some (Returned restored, st) /\
        effects r = pipeline n /\
        status r
        = Exit (if fst (compare_messages original restored) then 0 else 1)))).
Proof.
  intros n r drain. subst n r drain. unfold main.
  destruct (generate_length (arg_messages w) g) as [ms [g' [Hg Hlen]]].
  rewrite Hg. destruct ms as [|o ms].
  { left. simpl in Hlen. repeat split. lia. }
  right.
  assert (Hpos : 0 < arg_messages w) by (simpl in Hlen; lia).
  rewrite Hlen.
  destruct (produce_messages (broker w) (o :: ms)) as [u out2].
  destruct (backup_command_cases (backup_run w) "Backup completed")
    as [[Hb Hs]|[Hb Hs]];
    destruct (run_kafka_backup_command (backup_run w) "Backup completed")
      as [s3 out3]; cbn [fst] in Hs; subst s3; cbn [negb].
  2:{ left. repeat split; assumption. }
  right. unfold main_reset_restore.
  destruct (run_kafka_cli_command (delete_run w) "Topic deleted")
    as [s4 out4].
  destruct (run_kafka_cli_command (create_run w) "Topic recreated")
    as [s5 out5].
  destruct (backup_command_cases (restore_run w) "Restore completed")
    as [[Hr Hs]|[Hr Hs]];
    destruct (run_kafka_backup_command (restore_run w) "Restore completed")
      as [s6 out6]; cbn [fst] in Hs; subst s6; cbn [negb].
  2:{ left. repeat split; assumption. }
  right. split; [exact Hpos|]. split; [exact Hb|]. split; [exact Hr|].
  unfold main_verify.
  destruct (consume_messages fuel (verify_consumer w) (consume_start w)
              default_timeout) as [[[restored|e] st]|].
  - right. right. exists (o :: ms), restored, st.
    destruct (compare_messages (o :: ms) restored) as [[|] out8];
      repeat split.
  - right. left. exists e, st. repeat split.
  - left. repeat split.
Qed.
End PipelineFacts.

Section PipelineProperties.
Context {G : Type} (amb : ambient G).

(** Once the arguments are parsed, the side effects are an initial part
    of the seven steps, the exit status is 0 or 1, and it is 0 only
    after all seven steps. *)
Lemma parsed_main_steps_in_order (fuel : nat) (w : world) (g : G) :
  (exists k, effects (main amb fuel w g)
             = firstn k (pipeline (Z.to_nat (arg_messages w)))) /\
  (forall code, status (main amb fuel w g) = Exit code ->
                code = 0 \/ code = 1) /\
  (status (main amb fuel w g) = Exit 0 ->
   effects (main amb fuel w g) = pipeline (Z.to_nat (arg_messages w))).
Proof.
  destruct (main_cases amb fuel w g)
    as [(_ & Hs & He)
       |[(_ & _ & Hs & He)
        |[(_ & _ & _ & Hs & He)
         |(_ & _ & _ &
           [(_ & Hs & He)
           |[(e & st & _ & Hs & He)
            |(orig & rest & st & _ & _ & He & Hs)]])]]];
    rewrite Hs, He.
  - split; [now exists 0%nat|]. split; intros; discriminate.
  - split; [now exists 2%nat|]. split; [|discriminate].
    intros code H. injection H as <-. now right.
  - split; [now exists 5%nat|]. split; [|discriminate].
    intros code H. injection H as <-. now right.
  - split; [now exists 6%nat|]. split; intros; discriminate.
  - split; [now exists 6%nat|]. split; intros; discriminate.
  - split; [now exists 7%nat|]. split; [|reflexivity].
    intros code H. injection H as <-.
    destruct (fst (compare_messages orig rest)); auto.
Qed.

(** The destructive steps are guarded by the backup, the verification by
    the restore: the topic is deleted or created only in runs whose
    backup exited with status 0, and records are consumed and compared
    only in runs whose restore exited with status 0 as well. *)
Theorem topic_reset_only_after_backup (fuel : nat) (w : world) (g : G) :
  (In EffDeleteTopic (effects (main amb fuel w g)) \/
   In EffCreateTopic (effects (main amb fuel w g)) ->
   exited_zero (backup_run w)) /\
  (In EffConsume (effects (main amb fuel w g)) \/
   In EffCompare (effects (main amb fuel w g)) ->
   exited_zero (backup_run w) /\ exited_zero (restore_run w)).
Proof.
  destruct (main_cases amb fuel w g)
    as [(_ & Hs & He)
       |[(_ & _ & Hs & He)
        |[(_ & Hb & _ & Hs & He)
         |(_ & Hb & Hr &
           [(_ & Hs & He)
           |[(e & st & _ & Hs & He)
            |(orig & rest & st & _ & _ & He & Hs)]])]]];
    rewrite He; simpl; split; intros H; auto;
    repeat (destruct H as [H|H]; try discriminate H; try contradiction).
Qed.

(** A failing backup ends the run at once: when the backup does not
    exit with status 0 (non-zero status, timeout or exception), [main]
    exits with status 1 having only produced the records and run the
    backup; the topic is not touched. *)
Theorem backup_failure_stops_before_reset (fuel : nat) (w : world) (g : G) :
  0 < arg_messages w ->
  ~ exited_zero (backup_run w) ->
  status (main amb fuel w g) = Exit 1 /\
  effects (main amb fuel w g)
  = [EffProduce (Z.to_nat (arg_messages w)); EffBackup].
Proof.
  intros Hpos Hb.
  destruct (main_cases amb fuel w g)
    as [(Hn & _)
       |[(_ & _ & Hs & He)
        |[(_ & Hb' & _)
         |(_ & Hb' & _)]]];
    try lia; try contradiction.
  now rewrite Hs, He.
Qed.

(** A failing restore ends the run before anything is read back: when
    the backup exits with status 0 and the restore does not, [main]
    exits with status 1 after the restore step, whatever the two topic
    commands returned; nothing is consumed or compared. *)
Theorem restore_failure_stops_before_consume (fuel : nat) (w : world)
  (g : G) :
  0 < arg_messages w ->
  exited_zero (backup_run w) ->
  ~ exited_zero (restore_run w) ->
  status (main amb fuel w g) = Exit 1 /\
  effects (main amb fuel w g)
  = [EffProduce (Z.to_nat (arg_messages w)); EffBackup; EffDeleteTopic;
     EffCreateTopic; EffRestore].
Proof.
  intros Hpos Hb Hr.
  destruct (main_cases amb fuel w g)
    as [(Hn & _)
       |[(_ & Hb' & _)
        |[(_ & _ & _ & Hs & He)
         |(_ & _ & Hr' & _)]]];
    try lia; try contradiction.
  now rewrite Hs, He.
Qed.

(** Once the arguments are parsed, status 0 is reached exactly when
    every step passed and the comparator accepted. *)
Lemma parsed_main_exit_zero_iff (fuel : nat) (w : world) (g : G) :
  status (main amb fuel w g) = Exit 0 <->
  (0 < arg_messages w /\
   exited_zero (backup_run w) /\ exited_zero (restore_run w) /\
   exists original restored st,
     fst (generate_test_messages amb (arg_messages w) g) = Returned original
     /\ consume_messages fuel (verify_consumer w) (consume_start w)
          default_timeout = Some (Returned restored, st)
     /\ fst (compare_messages original restored) = true).
Proof.
  destruct (main_cases amb fuel w g)
    as [(Hn & Hs & He)
       |[(Hp & Hb & Hs & He)
        |[(Hp & Hb & Hr & Hs & He)
         |(Hp & Hb & Hr &
           [(Hd & Hs & He)
           |[(e & st & Hd & Hs & He)
            |(orig & rest & st & Hg & Hd & He & Hs)]])]]];
    rewrite Hs; split; try discriminate.
  - intros (Hp & _). lia.
  - intros (_ & Hb' & _). contradiction.
  - intros (_ & _ & Hr' & _). contradiction.
  - intros (_ & _ & _ & o & r & s & _ & Hd' & _). congruence.
  - intros (_ & _ & _ & o & r & s & _ & Hd' & _). congruence.
  - intros H. repeat split; try assumption.
    exists orig, rest, st. repeat split; try assumption.
    destruct (fst (compare_messages orig rest));
      [reflexivity | discriminate H].
  - intros (_ & _ & _ & o & r & s & Hg' & Hd' & Hc).
    rewrite Hg in Hg'. injection Hg' as <-.
    rewrite Hd in Hd'. injection Hd' as <- <-.
    now rewrite Hc.
Qed.

(** A count of zero or less stops the script before any side effect:
    the generator returns the empty list, indexing its first element
    raises [IndexError], and nothing is produced, backed up or
    deleted. *)
Theorem nonpositive_count_raises_before_effects (fuel : nat) (w : world)
  (g : G) :
  arg_messages w <= 0 ->
  main amb fuel w g
  = mkRun (Uncaught IndexError) [] [OutStep 1; OkGenerated 0].
Proof.
  intros Hle. unfold main.
  destruct (generate_length amb (arg_messages w) g) as [ms [g' [Hg Hlen]]].
  rewrite Hg. destruct ms as [|o ms]; [reflexivity|].
  simpl in Hlen. lia.
Qed.
End PipelineProperties.

Lemma backup_failure_stops_before_reset_witness :
  status (main counter_ambient 20 backup_fails_world 0) = Exit 1 /\
  effects (main counter_ambient 20 backup_fails_world 0)
  = [EffProduce 2; EffBackup].
Proof.
  apply (backup_failure_stops_before_reset counter_ambient 20
           backup_fails_world 0).
  - simpl. lia.
  - intros [o [e H]]. discriminate H.
Defined.

Lemma restore_failure_stops_before_consume_witness :
  status (main counter_ambient 20 restore_fails_world 0) = Exit 1 /\
  effects (main counter_ambient 20 restore_fails_world 0)
  = [EffProduce 2; EffBackup; EffDeleteTopic; EffCreateTopic; EffRestore].
Proof.
  apply (restore_failure_stops_before_consume counter_ambient 20
           restore_fails_world 0).
  - simpl. lia.
  - exists "", "". reflexivity.
  - intros [o [e H]]. discriminate H.
Defined.

Lemma nonpositive_count_raises_before_effects_witness :
  main counter_ambient 20 zero_world 0
  = mkRun (Uncaught IndexError) [] [OutStep 1; OkGenerated 0].
Proof.
  apply (nonpositive_count_raises_before_effects counter_ambient 20
           zero_world 0).
  simpl. lia.
Defined.

(** ** More on the report summary *)

Lemma dict_get_absent d key default :
  lookup d key = None -> dict_get d key default = default.
Proof.
  induction d as [|[k x] d IH]; simpl; [reflexivity|].
  destruct (String.eqb k key); [discriminate | exact IH].
Qed.

Lemma get_absent x key default v :
  get x key default = Returned v -> field x key = None -> v = default.
Proof.
  destruct x; simpl; try discriminate.
  intros H Hf. rewrite (dict_get_absent _ _ _ Hf) in H. now injection H.
Qed.

Lemma section_of_inv results name scenarios x y :
  get results "scenarios" (JObj []) = Returned scenarios ->
  get scenarios name (JObj []) = Returned x ->
  section_of results name = Returned y -> y = x.
Proof.
  intros E0 E1. unfold section_of. rewrite E0. simpl. rewrite E1.
  intros H. now injection H.
Qed.

(** A section that is there but lacks its headline number is reported
    with the number 0: the throughput row and the compression row then
    say FAIL, and the checkpoint row, where lower is better, says
    PASS. *)
Theorem summary_missing_value_counts_as_zero (results : json)
  (rows : list summary_row) :
  summary_rows results = Returned rows ->
  (forall x, section_of results "throughput" = Returned x ->
             truthy x = true -> field x "backup_mbps" = None ->
             In (throughput_summary 0) rows /\
             row_status (throughput_summary 0) = FAIL) /\
  (forall x, section_of results "compression" = Returned x ->
             truthy x = true -> field x "zstd" = None ->
             In (compression_summary 0) rows /\
             row_status (compression_summary 0) = FAIL) /\
  (forall x, section_of results "latency" = Returned x ->
             truthy x = true -> field x "checkpoint_p99_ms" = None ->
             In (latency_summary 0) rows /\
             row_status (latency_summary 0) = PASS).
Proof.
  intros H.
  destruct (summary_rows_inv _ _ H)
    as (sc & tp & cp & lt & r1 & r2 & r3
        & E0 & E1 & E2 & E3 & E4 & E5 & E6 & ->).
  split; [|split]; intros x Hx Ht Hf; (split; [|reflexivity]).
  - rewrite (section_of_inv _ _ _ _ _ E0 E1 Hx) in *.
    unfold throughput_row in E2. rewrite Ht in E2.
    apply bind_Returned in E2 as [v [Ev E2]].
    rewrite (get_absent _ _ _ _ Ev Hf) in E2. simpl in E2.
    injection E2 as <-. now left.
  - rewrite (section_of_inv _ _ _ _ _ E0 E3 Hx) in *.
    unfold compression_row in E4. rewrite Ht in E4.
    apply bind_Returned in E4 as [z [Ez E4]].
    rewrite (get_absent _ _ _ _ Ez Hf) in E4. simpl in E4.
    injection E4 as <-. rewrite !in_app_iff. right. left. now left.
  - rewrite (section_of_inv _ _ _ _ _ E0 E5 Hx) in *.
    unfold latency_row in E6. rewrite Ht in E6.
    apply bind_Returned in E6 as [v [Ev E6]].
    rewrite (get_absent _ _ _ _ Ev Hf) in E6. simpl in E6.
    injection E6 as <-. rewrite !in_app_iff. right. right. now left.
Qed.

(** A section that is absent or empty has no row: the summary has at
    most three rows, and none for a metric whose section is falsy. *)
Theorem summary_skips_empty_sections (results : json)
  (rows : list summary_row) :
  summary_rows results = Returned rows ->
  (List.length rows <= 3)%nat /\
  (forall x, section_of results "throughput" = Returned x ->
             truthy x = false ->
             forall r, In r rows -> metric r <> "Throughput (Backup)") /\
  (forall x, section_of results "compression" = Returned x ->
             truthy x = false ->
             forall r, In r rows -> metric r <> "Compression Ratio") /\
  (forall x, section_of results "latency" = Returned x ->
             truthy x = false ->
             forall r, In r rows -> metric r <> "Checkpoint p99").
Proof.
  intros H.
  destruct (summary_rows_inv _ _ H)
    as (sc & tp & cp & lt & r1 & r2 & r3
        & E0 & E1 & E2 & E3 & E4 & E5 & E6 & ->).
  pose proof (throughput_row_inv _ _ E2) as H1.
  pose proof (compression_row_inv _ _ E4) as H2.
  pose proof (latency_row_inv _ _ E6) as H3.
  split; [|split; [|split]].
  - rewrite !length_app.
    destruct H1 as [->|[v1 ->]], H2 as [->|[v2 ->]], H3 as [->|[v3 ->]];
      simpl; lia.
  - intros x Hx Ht r Hr.
    rewrite (section_of_inv _ _ _ _ _ E0 E1 Hx) in *.
    unfold throughput_row in E2. rewrite Ht in E2. injection E2 as <-.
    destruct H2 as [->|[v2 ->]], H3 as [->|[v3 ->]]; simpl in Hr;
      repeat (destruct Hr as [<-|Hr]; [discriminate|]); contradiction.
  - intros x Hx Ht r Hr.
    rewrite (section_of_inv _ _ _ _ _ E0 E3 Hx) in *.
    unfold compression_row in E4. rewrite Ht in E4. injection E4 as <-.
    destruct H1 as [->|[v1 ->]], H3 as [->|[v3 ->]]; simpl in Hr;
      repeat (destruct Hr as [<-|Hr]; [discriminate|]); contradiction.
  - intros x Hx Ht r Hr.
    rewrite (section_of_inv _ _ _ _ _ E0 E5 Hx) in *.
    unfold latency_row in E6. rewrite Ht in E6. injection E6 as <-.
    destruct H1 as [->|[v1 ->]], H2 as [->|[v2 ->]]; simpl in Hr;
      repeat (destruct Hr as [<-|Hr]; [discriminate|]); contradiction.
Qed.

Lemma summary_missing_value_counts_as_zero_witness :
  In (latency_summary 0)
     [throughput_summary 0; compression_summary 0; latency_summary 0] /\
  row_status (latency_summary 0) = PASS.
Proof.
  destruct (summary_missing_value_counts_as_zero partial_results
              [throughput_summary 0; compression_summary 0;
               latency_summary 0] eq_refl) as (_ & _ & H).
  apply (H (JObj [("fetch_p50_ms", JNum 5)])); reflexivity.
Defined.

Lemma summary_skips_empty_sections_witness :
  (List.length [throughput_summary 0] <= 3)%nat /\
  forall r, In r [throughput_summary 0] -> metric r <> "Checkpoint p99".
Proof.
  destruct (summary_skips_empty_sections fallback_results
              [throughput_summary 0] eq_refl) as (H1 & _ & _ & H2).
  split; [exact H1|].
  apply (H2 (JObj [])); reflexivity.
Defined.

(** ** The partition scaling table *)



Lemma lift_not_division {A : Type} (x : outcome A) :
  lift x <> ZeroDivisionError.
Proof. destruct x; discriminate. Qed.


Section ScalingFacts.
Context (true_divide : Q -> Q -> Q).

Lemma factor_of_not_division mbps baseline :
  factor_of true_divide mbps baseline <> ZeroDivisionError.
Proof.
  unfold factor_of.
  destruct (as_operand baseline) as [b|e]; simpl; [|discriminate].
  destruct (Qle_bool b 0) eqn:Eb; simpl; [discriminate|].
  destruct (as_operand mbps) as [m|e]; simpl; [|discriminate].
  unfold py_div. destruct (Qeq_bool b 0) eqn:E0; [|discriminate].
  apply Qeq_bool_iff in E0.
  assert (Hle : Qle_bool b 0 = true)
    by (apply Qle_bool_iff; rewrite E0; apply Qle_refl).
  congruence.
Qed.


Lemma scaling_loop_not_division d baseline ps :
  scaling_loop true_divide d baseline ps <> ZeroDivisionError.
Proof.
  induction ps as [|p ps IH]; simpl; [discriminate|].
  destruct (lookup d p) as [entry|]; [|exact IH].
  destruct (get entry "backup_mbps" (JNum 0)) as [mbps|e]; simpl;
    [|discriminate].
  pose proof (factor_of_not_division mbps baseline) as Hf.
  destruct (factor_of true_divide mbps baseline) as [f|e|]; simpl;
    [|discriminate|contradiction].
  destruct (as_number mbps) as [shown|e]; simpl; [|discriminate].
  destruct (scaling_loop true_divide d baseline ps) as [rest|e|]; simpl;
    [discriminate | discriminate | contradiction].
Qed.

(** The guard [baseline > 0] covers every division: whatever the
    document holds, building the scaling table does not raise
    [ZeroDivisionError]. *)
Theorem scaling_never_divides_by_zero (scenarios : json) :
  scaling_rows true_divide scenarios <> ZeroDivisionError.
Proof.
  unfold scaling_rows.
  destruct (get scenarios "concurrent-partitions" (JObj [])) as [sc|e];
    cbn [lift and_then]; [|discriminate].
  destruct (truthy sc); [|discriminate].
  destruct sc as [| | | | |d]; try discriminate.
  cbn [get lift and_then].
  destruct (get (dict_get d "1" (JObj [])) "backup_mbps" (JNum 1))
    as [baseline|e]; cbn [lift and_then]; [|discriminate].
  apply scaling_loop_not_division.
Qed.


End ScalingFacts.



Example scaling_zero_baseline :
  scaling_rows thousandths_divide zero_baseline_scenarios
  = Value [mkScaling "1" 0 0; mkScaling "4" 120 0].
Proof. reflexivity. Qed.

(** ** The pipeline, end to end *)

Lemma compare_permutation_true (expected actual : list order) :
  NoDup (map order_id expected) -> Permutation expected actual ->
  fst (compare_messages expected actual) = true.
Proof.
  intros ND P. unfold compare_messages.
  rewrite <- (Permutation_length P), Nat.eqb_refl. cbn [negb].
  rewrite <- (sorted_by_order_id_permutation _ _ ND P).
  now rewrite compare_loop_same.
Qed.

Lemma consume_messages_delivers c now timeout restored per_record fuel :
  timely c -> delivers c restored ->
  (forall i, (i < List.length restored)%nat ->
             blocked_ms (c i) <= per_record) ->
  Z.of_nat (List.length restored) * per_record
  + max_empty_polls * poll_interval <= timeout ->
  (List.length restored + 10 < fuel)%nat ->
  exists st',
    consume_messages fuel c now timeout = Some (Returned restored, st').
Proof.
  intros Hc Hd Hper Hto Hfuel.
  destruct (consume_loop_delivers c now timeout restored per_record
              Hc Hd Hper Hto
              (List.length restored) (mkDrain [] 0 now 0%nat []) fuel)
    as [st' [H1 _]];
    cbn [polls_done messages empty_polls clock printed];
    try reflexivity; try lia.
  now exists st'.
Qed.

Section EndToEnd.
Context {G : Type} (amb : ambient G).

Lemma generated_keys_NoDup count g original :
  fst (generate_test_messages amb count g) = Returned original ->
  NoDup (map order_id original).
Proof.
  rewrite generate_returns. intros H. injection H as <-.
  rewrite generate_loop_keys.
  apply NoDup_map_NoDup_ForallPairs; [|apply range_NoDup].
  intros i j Hi Hj E. apply range_In in Hi, Hj.
  injection E as E. apply (format_0d_inj 4); lia || assumption.
Qed.

(** A faithful restore passes.  When backup and restore exit with status
    0 and the restored topic hands back the generated orders, in any
    order, one per poll and within the time the 30 second timeout
    leaves for them, [main] runs all seven steps and exits with status
    0; neither the broker's acknowledgements nor the results of the two
    topic commands matter. *)
Theorem faithful_restore_exits_zero (fuel : nat) (w : world) (g : G)
  (original restored : list order) (per_record : Z) :
  0 < arg_messages w ->
  fst (generate_test_messages amb (arg_messages w) g) = Returned original ->
  exited_zero (backup_run w) -> exited_zero (restore_run w) ->
  Permutation original restored ->
  timely (verify_consumer w) -> delivers (verify_consumer w) restored ->
  (forall i, (i < List.length restored)%nat ->
             blocked_ms (verify_consumer w i) <= per_record) ->
  arg_messages w * per_record + max_empty_polls * poll_interval
  <= default_timeout ->
  (Z.to_nat (arg_messages w) + 10 < fuel)%nat ->
  status (main amb fuel w g) = Exit 0 /\
  effects (main amb fuel w g) = pipeline (Z.to_nat (arg_messages w)).
Proof.
  intros Hpos Hg Hb Hr P Hc Hd Hper Hto Hfuel.
  assert (Hlen : List.length restored = Z.to_nat (arg_messages w)).
  { rewrite <- (Permutation_length P).
    destruct (generate_length amb (arg_messages w) g)
      as [ms [g' [Hg' Hl]]].
    rewrite Hg' in Hg. cbn [fst] in Hg. injection Hg as <-. exact Hl. }
  destruct (consume_messages_delivers (verify_consumer w) (consume_start w)
              default_timeout restored per_record fuel Hc Hd Hper)
    as [st' Hdrain]; [rewrite Hlen; lia | lia |].
  destruct (main_cases amb fuel w g)
    as [(Hn & _)
       |[(_ & Hb' & _)
        |[(_ & _ & Hr' & _)
         |(_ & _ & _ &
           [(Hd' & _)
           |[(e & st & Hd' & _)
            |(orig & rest & st & Hg' & Hd' & He & Hs)]])]]];
    try lia; try contradiction; try congruence.
  rewrite Hg in Hg'. injection Hg' as <-.
  rewrite Hdrain in Hd'. injection Hd' as <- <-.
  rewrite Hs, He.
  rewrite (compare_permutation_true original restored
             (generated_keys_NoDup _ _ _ Hg) P).
  now split.
Qed.

(** Once the arguments are parsed, a run that exits with status 0 has
    drained the orders it polled, as many as were generated, with the
    generated keys and amounts. *)
Lemma parsed_main_exit_zero_certifies (fuel : nat) (w : world) (g : G) :
  status (main amb fuel w g) = Exit 0 ->
  exists original restored st,
    fst (generate_test_messages amb (arg_messages w) g) = Returned original
    /\ consume_messages fuel (verify_consumer w) (consume_start w)
         default_timeout = Some (Returned restored, st)
    /\ restored = decoded_orders (verify_consumer w) (polls_done st)
    /\ List.length restored = Z.to_nat (arg_messages w)
    /\ Permutation (map key_amount original) (map key_amount restored).
Proof.
  intros H.
  destruct (main_cases amb fuel w g)
    as [(_ & Hs & _)
       |[(_ & _ & Hs & _)
        |[(_ & _ & _ & Hs & _)
         |(_ & _ & _ &
           [(_ & Hs & _)
           |[(e & st & _ & Hs & _)
            |(orig & rest & st & Hg & Hd & He & Hs)]])]]];
    rewrite Hs in H; try discriminate H.
  assert (Hc : fst (compare_messages orig rest) = true)
    by (destruct (fst (compare_messages orig rest));
        [reflexivity | discriminate H]).
  destruct (compare_true_key_amounts _ _ Hc) as [Hlen HP].
  exists orig, rest, st. repeat split; try assumption.
  - unfold consume_messages in Hd.
    destruct (consume_loop_collects _ _ _ _
                (mkDrain [] 0 (consume_start w) 0%nat []) _ _ eq_refl Hd)
      as [H1 H2].
    rewrite <- H1. now apply H2.
  - rewrite <- Hlen.
    destruct (generate_length amb (arg_messages w) g)
      as [ms [g' [Hg' Hl]]].
    rewrite Hg' in Hg. cbn [fst] in Hg. injection Hg as <-. exact Hl.
Qed.
End EndToEnd.

Lemma faithful_restore_exits_zero_witness :
  status (main counter_ambient 20 shortfall_world 0) = Exit 0 /\
  effects (main counter_ambient 20 shortfall_world 0) = pipeline 3.
Proof.
  apply (faithful_restore_exits_zero counter_ambient 20 shortfall_world 0
           (sample_orders 3) (sample_orders 3) 5).
  - simpl. lia.
  - reflexivity.
  - exists "", "". reflexivity.
  - exists "", "". reflexivity.
  - apply Permutation_refl.
  - apply replay_consumer_timely.
  - apply replay_consumer_delivers.
  - apply replay_consumer_quick.
  - vm_compute. discriminate.
  - simpl. lia.
Defined.

(** ** The generated fields *)

Lemma range_In_iff a b i : In i (range a b) <-> a <= i < b.
Proof.
  split; [apply range_In|]. intros H. unfold range.
  apply in_map_iff. exists (Z.to_nat (i - a)). split; [lia|].
  apply in_seq. lia.
Qed.

Lemma format_03d_width n :
  1 <= n <= 100 -> String.length (format_0d 3 n) = 3%nat.
Proof.
  intros H.
  assert (Hall : forallb (fun k => Nat.eqb (String.length (format_0d 3 k)) 3)
                   (range 1 101) = true) by (vm_compute; reflexivity).
  rewrite forallb_forall in Hall.
  apply Nat.eqb_eq, Hall, range_In_iff. lia.
Qed.

Section GeneratedFields.
Context {G : Type} (amb : ambient G).

Lemma generate_loop_fields indices :
  honours_ranges amb ->
  forall g o,
    In o (fst (generate_loop amb indices g)) ->
    In (product o) products /\
    1000 <= amount o <= 100000 /\
    exists n, 1 <= n <= 100 /\
              customer_id o = ("CUST-" ++ format_0d 3 n)%string.
Proof.
  intros (Hrand & Hchoice & Huni).
  induction indices as [|i indices IH]; intros g o Ho; simpl in Ho;
    [contradiction|].
  pose proof (Hrand 1 100 g ltac:(lia)) as H1.
  destruct (randint amb 1 100 g) as [c g1].
  pose proof (Hchoice products g1 ltac:(discriminate)) as H2.
  destruct (choice amb products g1) as [p g2].
  pose proof (Huni 10 1000 g2 ltac:(lia)) as H3.
  destruct (uniform_round2 amb 10 1000 g2) as [a g3].
  destruct (strftime_gmtime amb g3) as [t g4].
  specialize (IH g4 o).
  destruct (generate_loop amb indices g4) as [rest g5].
  cbn [fst] in *. destruct Ho as [<-|Ho]; [|now apply IH].
  cbn [product amount customer_id]. repeat split; try assumption; try lia.
  exists c. now split.
Qed.

(** When the random source keeps to its ranges, every generated order is
    well formed: its product is one of Widget, Gadget, Device and Tool,
    its amount lies between 10.00 and 1000.00, and its customer id is
    [CUST-] followed by the three digits of a number between 1 and
    100. *)
Theorem generated_orders_well_formed (count : Z) (g : G)
  (messages : list order) :
  honours_ranges amb ->
  fst (generate_test_messages amb count g) = Returned messages ->
  forall o, In o messages ->
    In (product o) products /\
    1000 <= amount o <= 100000 /\
    String.length (customer_id o) = 8%nat /\
    exists n, 1 <= n <= 100 /\
              customer_id o = ("CUST-" ++ format_0d 3 n)%string.
Proof.
  intros Hamb Hg o Ho.
  rewrite generate_returns in Hg. injection Hg as <-.
  destruct (generate_loop_fields _ Hamb _ _ Ho) as (Hp & Ha & n & Hn & Hc).
  repeat split; try assumption; try lia.
  - rewrite Hc. cbn [append String.length]. now rewrite format_03d_width.
  - now exists n.
Qed.
End GeneratedFields.

Lemma counter_ambient_honours_ranges : honours_ranges counter_ambient.
Proof.
  split; [|split]; cbn [randint choice uniform_round2 counter_ambient fst].
  - intros a b g Hab.
    pose proof (Z.mod_pos_bound g (b - a + 1) ltac:(lia)). lia.
  - intros xs g Hxs. apply nth_In.
    assert (0 < Z.of_nat (List.length xs))
      by (destruct xs; [contradiction | simpl; lia]).
    pose proof (Z.mod_pos_bound g (Z.of_nat (List.length xs))
                  ltac:(assumption)).
    lia.
  - intros a b g Hab.
    pose proof (Z.mod_pos_bound g (100 * (b - a) + 1) ltac:(lia)). lia.
Qed.

Lemma generated_orders_well_formed_witness :
  In (product first_sample) products /\
  1000 <= amount first_sample <= 100000 /\
  String.length (customer_id first_sample) = 8%nat /\
  exists n, 1 <= n <= 100 /\
            customer_id first_sample = ("CUST-" ++ format_0d 3 n)%string.
Proof.
  apply (generated_orders_well_formed counter_ambient 3 0 (sample_orders 3)).
  - exact counter_ambient_honours_ranges.
  - reflexivity.
  - left. reflexivity.
Defined.

(** ** The script from its command line *)

Section CommandLine.
Context {G : Type} (amb : ambient G).

(** Steps run in the order of the script and never out of it: the side
    effects of any run are an initial part of produce, backup, delete
    topic, create topic, restore, consume, compare.  A run that exits
    does so with status 0, 1 or 2; with status 2 exactly on a usage
    error; and with status 0 only after all seven steps, or at once
    when the help text was asked for. *)
Theorem command_line_runs_steps_in_order (parsed : parse_result)
  (fuel : nat) (w : world) (g : G) :
  (exists k, effects (main_from_command_line amb parsed fuel w g)
             = firstn k (pipeline (Z.to_nat (arg_messages w)))) /\
  (forall code, status (main_from_command_line amb parsed fuel w g)
                = Exit code -> code = 0 \/ code = 1 \/ code = 2) /\
  (status (main_from_command_line amb parsed fuel w g) = Exit 2 <->
   parsed = UsageError) /\
  (status (main_from_command_line amb parsed fuel w g) = Exit 0 ->
   effects (main_from_command_line amb parsed fuel w g)
   = pipeline (Z.to_nat (arg_messages w)) \/
   parsed = HelpRequested /\
   effects (main_from_command_line amb parsed fuel w g) = []).
Proof.
  destruct parsed; cbn [main_from_command_line status effects].
  - destruct (parsed_main_steps_in_order amb fuel w g) as (Hk & Hc & H0).
    split; [exact Hk|]. split; [|split].
    + intros code H. destruct (Hc code H); auto.
    + split; [|discriminate]. intros H.
      destruct (Hc 2 H); discriminate.
    + intros H. left. now apply H0.
  - split; [now exists 0%nat|]. split; [|split].
    + intros code H. injection H as <-. auto.
    + split; discriminate.
    + intros _. right. now split.
  - split; [now exists 0%nat|]. split; [|split].
    + intros code H. injection H as <-. auto.
    + split; reflexivity.
    + discriminate.
Qed.

(** Exit status 0 means one of two things: the help text was asked
    for; or the arguments parsed with a positive number of records,
    backup and restore both exited with status 0, the drain returned,
    and [compare_messages] accepted the drained records against the
    generated ones. *)
Theorem command_line_exit_zero_iff (parsed : parse_result) (fuel : nat)
  (w : world) (g : G) :
  status (main_from_command_line amb parsed fuel w g) = Exit 0 <->
  parsed = HelpRequested \/
  (parsed = ArgsParsed /\
   0 < arg_messages w /\
   exited_zero (backup_run w) /\ exited_zero (restore_run w) /\
   exists original restored st,
     fst (generate_test_messages amb (arg_messages w) g) = Returned original
     /\ consume_messages fuel (verify_consumer w) (consume_start w)
          default_timeout = Some (Returned restored, st)
     /\ fst (compare_messages original restored) = true).
Proof.
  destruct parsed; cbn [main_from_command_line status].
  - rewrite parsed_main_exit_zero_iff. split.
    + intros H. right. split; [reflexivity | exact H].
    + intros [H|[_ H]]; [discriminate | exact H].
  - split; [now left | reflexivity].
  - split; [discriminate|]. intros [H|[H _]]; discriminate.
Qed.

(** Exit status 0 certifies the data unless only the help text was
    asked for: in every other run that exits with status 0 the drain
    returned the orders it polled from the restored topic, as many as
    were generated, and they carry the generated keys with the
    generated amounts. *)
Theorem command_line_exit_zero_certifies (parsed : parse_result)
  (fuel : nat) (w : world) (g : G) :
  status (main_from_command_line amb parsed fuel w g) = Exit 0 ->
  (parsed = HelpRequested /\
   effects (main_from_command_line amb parsed fuel w g) = []) \/
  exists original restored st,
    fst (generate_test_messages amb (arg_messages w) g) = Returned original
    /\ consume_messages fuel (verify_consumer w) (consume_start w)
         default_timeout = Some (Returned restored, st)
    /\ restored = decoded_orders (verify_consumer w) (polls_done st)
    /\ List.length restored = Z.to_nat (arg_messages w)
    /\ Permutation (map key_amount original) (map key_amount restored).
Proof.
  destruct parsed; cbn [main_from_command_line status effects].
  - intros H. right. now apply parsed_main_exit_zero_certifies.
  - intros _. left. now split.
  - discriminate.
Qed.
End CommandLine.

Lemma command_line_exit_zero_certifies_witness :
  (ArgsParsed = HelpRequested /\
   effects (main_from_command_line counter_ambient ArgsParsed 20
              delete_fails_world 0) = []) \/
  exists original restored st,
    fst (generate_test_messages counter_ambient
           (arg_messages delete_fails_world) 0) = Returned original
    /\ consume_messages 20 (verify_consumer delete_fails_world)
         (consume_start delete_fails_world) default_timeout
       = Some (Returned restored, st)
    /\ restored
       = decoded_orders (verify_consumer delete_fails_world) (polls_done st)
    /\ List.length restored = Z.to_nat (arg_messages delete_fails_world)
    /\ Permutation (map key_amount original) (map key_amount restored).
Proof.
  apply (command_line_exit_zero_certifies counter_ambient ArgsParsed 20
           delete_fails_world 0).
  reflexivity.
Defined.

Example help_exits_zero_without_steps :
  main_from_command_line counter_ambient HelpRequested 20 shortfall_world 0
  = mkRun (Exit 0) [] [OutArgparseHelp].
Proof. reflexivity. Qed.
